(** * Volga_test: weather polling, selection of the current sample,
      persistence and spreadsheet export

    Shallow embedding of [app/schema.py], [app/models.py],
    [app/services.py] and [app/main.py].

    Conventions of the embedding.
    - A finite Python [float] is the rational [Q] it denotes: Python
      compares a float with an integer literal exactly, and where the code
      computes with floats the rounding to binary64 is written out.
    - A Python exception is a value of [exn]; a call that may raise returns
      [pyresult].
    - [datetime.now()] is read once per pass of a [for] loop in the source,
      so the selection functions take the readings as a function of the pass
      number.
    - [constants.WEATHER_CODE_MAP] and [datetime.fromisoformat], which live
      outside the modelled files, are parameters. *)

From Stdlib Require Import ZArith QArith Qround Qabs Qpower Lia Lqa Floats.
From stdpp Require Import base option list sorting strings gmap.

Local Open Scope Z_scope.

(** ** Python runtime *)

Module Py.

(** The exception classes that the modelled code can meet.  [NoMatchError]
    is the class the specification names for the hourly selection; no source
    file defines or raises it. *)
Inductive exn : Type :=
| ClientError          (* aiohttp: network failure, bad JSON envelope *)
| KeyError             (* response["hourly"], response["minutely_15"] *)
| ValidationError      (* pydantic, on construction of a model *)
| SerializationError   (* pydantic, a field serializer raised *)
| IndexError           (* value[current_time_index] *)
| TypeError            (* dict | None *)
| SQLAlchemyError      (* session.commit, session.scalars *)
| NoMatchError.

Inductive pyresult (A : Type) : Type :=
| Ok (a : A)
| Raise (e : exn).
Arguments Ok {A} a.
Arguments Raise {A} e.

#[global] Instance pyresult_ret : MRet pyresult := λ A a, Ok a.
#[global] Instance pyresult_bind : MBind pyresult := λ A B k m,
  match m with
  | Ok a => k a
  | Raise e => Raise e
  end.

(** Turns a missing value into the exception the source would raise. *)
Definition or_raise {A} (e : exn) (o : option A) : pyresult A :=
  match o with
  | Some a => Ok a
  | None => Raise e
  end.

(** [[f(i) for i in l]] where [f] may raise: the first failure wins. *)
Fixpoint traverse {A B} (f : A → pyresult B) (l : list A) : pyresult (list B) :=
  match l with
  | [] => Ok []
  | a :: l' => b ← f a; bs ← traverse f l'; Ok (b :: bs)
  end.

(** [datetime.datetime] as parsed from the provider's ISO strings; only the
    calendar fields are kept. *)
Record datetime : Type := Datetime {
  year : Z; month : Z; day : Z; hour : Z; minute : Z
}.

(** Exact comparison of rationals, as Python compares a float with an
    integer literal. *)
Definition Qleb (x y : Q) : bool := Qle_bool x y.
Definition Qltb (x y : Q) : bool := negb (Qle_bool y x).

(** The float literal [1.333]: the binary64 value nearest to 1333/1000. *)
Definition float_1_333 : Q := 6003298303284871 # 4503599627370496.

(** *** Binary64 arithmetic on finite values

    A finite float is the rational it denotes; an operation on floats is the
    exact operation followed by rounding to the nearest binary64 value, ties
    to even.  Infinities, NaN and the sign of zero have no counterpart here,
    and the exponent is not bounded: the values that the modelled code feeds
    to these operations stay clear of overflow and of the subnormal range. *)

(** The exponent of a positive rational: [2 ^ e <= q < 2 ^ (e + 1)]. *)
Definition ilog2 (q : Q) : Z :=
  let e := Z.log2 (Qnum q) - Z.log2 (Zpos (Qden q)) in
  if Qle_bool (2 ^ e) q then e else e - 1.

(** The nearest integer, ties to even. *)
Definition nearest_even (m : Q) : Z :=
  let f := Qfloor m in
  match Qcompare (m - inject_Z f) (1 # 2) with
  | Lt => f
  | Gt => f + 1
  | Eq => if Z.even f then f else f + 1
  end.

(** A positive rational rounded to 53 significant bits. *)
Definition round_pos (q : Q) : Q :=
  let ulp := (2 ^ (ilog2 q - 52))%Q in
  (inject_Z (nearest_even (q / ulp)) * ulp)%Q.

(** The binary64 value nearest to [q], in lowest terms. *)
Definition round64 (q : Q) : Q :=
  let q := Qred q in
  Qred match Qcompare q 0 with
       | Eq => 0
       | Gt => round_pos q
       | Lt => - round_pos (- q)
       end.

(** The float operators [+], [-] and [/]. *)
Definition fadd (x y : Q) : Q := round64 (x + y).
Definition fsub (x y : Q) : Q := round64 (x - y).
Definition fdiv (x y : Q) : Q := round64 (x / y).

(** C's [floor] on a float; the result is a float, no rounding occurs. *)
Definition ffloor (x : Q) : Q := inject_Z (Qfloor x).

(** Rounding towards zero. *)
Definition trunc (q : Q) : Z := if Qle_bool 0 q then Qfloor q else Qceiling q.

(** C's [fmod]: [x - n * y] with [n] the quotient rounded towards zero; the
    result is a float, no rounding occurs. *)
Definition fmod (x y : Q) : Q := (x - inject_Z (trunc (x / y)) * y)%Q.

(** [vx // wx] on floats as CPython computes it, for [wx] other than zero
    (for zero CPython raises [ZeroDivisionError]; the modelled code divides by
    a literal):
    [mod = fmod(vx, wx); div = (vx - mod) / wx;]
    [if (mod && ((wx < 0) != (mod < 0))) div -= 1.0;]
    [if (div) { floordiv = floor(div);]
    [           if (div - floordiv > 0.5) floordiv += 1.0; }]
    [else floordiv = copysign(0.0, vx / wx);] *)
Definition floordiv (vx wx : Q) : Q :=
  let remainder := fmod vx wx in
  let div := fdiv (fsub vx remainder) wx in
  let div :=
    if negb (Qeq_bool remainder 0)
       && negb (Bool.eqb (Qltb wx 0) (Qltb remainder 0))
    then fsub div 1 else div in
  if negb (Qeq_bool div 0) then
    let floordiv := ffloor div in
    if Qltb (1 # 2) (fsub div floordiv) then fadd floordiv 1 else floordiv
  else 0%Q.

(** The rational denoted by a finite primitive float, in lowest terms. *)
Definition float_value (f : float) : Q :=
  Qred match Prim2SF f with
       | S754_finite s m e =>
           ((if s then -1 else 1) * inject_Z (Zpos m) * 2 ^ e)%Q
       | _ => 0
       end.

(** A [str] whose characters are inspected is a list of code points. *)
Definition str : Type := list Z.

(** [str.isspace] on one character. *)
Definition isspace (c : Z) : bool :=
  (9 <=? c) && (c <=? 13) || (28 <=? c) && (c <=? 32)
  || (c =? 133) || (c =? 160) || (c =? 5760)
  || (8192 <=? c) && (c <=? 8202)
  || (c =? 8232) || (c =? 8233) || (c =? 8239) || (c =? 8287) || (c =? 12288).

Fixpoint lstrip (s : str) : str :=
  match s with
  | c :: s' => if isspace c then lstrip s' else s
  | [] => []
  end.

(** [s.strip()] *)
Definition strip (s : str) : str := reverse (lstrip (reverse (lstrip s))).

(** [str.lower] on one character, for Basic Latin, Latin-1 and the Cyrillic
    capitals; a character of another script is left as it is (none of them
    lowers to a letter of the answers that the export prompt accepts). *)
Definition lower_char (c : Z) : Z :=
  if (65 <=? c) && (c <=? 90) then c + 32
  else if (192 <=? c) && (c <=? 222) && negb (c =? 215) then c + 32
  else if (1024 <=? c) && (c <=? 1039) then c + 80
  else if (1040 <=? c) && (c <=? 1071) then c + 32
  else c.

(** [s.lower()] *)
Definition lower (s : str) : str := map lower_char s.

End Py.

(** ** [schema.py] *)

Module Schema.
Import Py.

(** The four strings of [serialize_wind_direction]:
    North, East, South, West. *)
Definition NORTH : string := "Север".
Definition EAST : string := "Восток".
Definition SOUTH : string := "Юг".
Definition WEST : string := "Запад".

(** One pass of the [for direction in directions] loop: the label appended
    to [result], or [None] when no branch of the [if]/[elif] chain fires and
    nothing is appended. *)
Definition wind_direction_label (direction : Q) : option string :=
  if Qltb 315 direction && Qleb direction 360
     || Qleb 0 direction && Qleb direction 45 then Some NORTH
  else if Qltb 45 direction && Qleb direction 135 then Some EAST
  else if Qltb 135 direction && Qleb direction 225 then Some SOUTH
  else if Qltb 225 direction && Qleb direction 315 then Some WEST
  else None.

Fixpoint serialize_wind_direction (directions : list Q) : list string :=
  match directions with
  | [] => []
  | direction :: rest =>
      match wind_direction_label direction with
      | Some label => label :: serialize_wind_direction rest
      | None => serialize_wind_direction rest
      end
  end.

(** [serialize_surface_pressure]: [pressure // 1.333] for each pressure. *)
Definition serialize_surface_pressure (pressures : list Q) : list Q :=
  map (λ pressure, floordiv pressure float_1_333) pressures.

(** The keyword arguments handed to [WeatherMinutelySchemaIn]
    ([response["minutely_15"]]).  A field is [None] when the key is absent
    or its value is not of the declared type, which is all that pydantic's
    validation distinguishes. *)
Record MinutelyPayload : Type := {
  p_time : option (list string);
  p_temperature_2m : option (list Q);
  p_precipitation : option (list Z);
  p_wind_speed_10m : option (list Q);
  p_wind_direction_10m : option (list Q);
  p_weather_code : option (list Z)
}.

(** [WeatherMinutelySchemaIn(...).model_dump(by_alias=True)]: the columns
    under their serialization aliases. *)
Record MinutelyData : Type := {
  m_time : list datetime;
  m_temperature : list Q;
  m_precipitation : list Z;
  m_wind_speed : list Q;
  m_wind_direction : list string;
  m_weather : list (option string)
}.

(** The keyword arguments handed to [WeatherHourlySchemaIn]
    ([response["hourly"]]). *)
Record HourlyPayload : Type := {
  p_hourly_time : option (list string);
  p_surface_pressure : option (list Q)
}.

(** [WeatherHourlySchemaIn(...).model_dump(by_alias=True)] *)
Record HourlyData : Type := {
  h_time : list datetime;
  h_pressure : list Q
}.

(** The keyword arguments handed to [WeatherRecordCreateSchema]: the merged
    dict [minutely_data | hourly_data].  [time] is a key of the dict that
    the schema does not declare and ignores. *)
Record CreateData : Type := {
  c_time : datetime;
  c_temperature : Q;
  c_precipitation : Z;
  c_wind_speed : Q;
  c_wind_direction : string;
  c_weather : option string;
  c_pressure : Q
}.

(** [WeatherRecordCreateSchema] *)
Record WeatherRecordCreateSchema : Type := {
  temperature : Q;
  wind_speed : Q;
  wind_direction : string;
  precipitation : Q;
  pressure : Q;
  weather : string
}.

(** Validation against [WeatherRecordCreateSchema]: every field but
    [weather] holds a value of the declared type already (an [int] is
    accepted for a [float] field); [weather: str] rejects [None]. *)
Definition validate_create (kwargs : CreateData) : pyresult WeatherRecordCreateSchema :=
  weather ← or_raise ValidationError (c_weather kwargs);
  Ok {| temperature := c_temperature kwargs;
        wind_speed := c_wind_speed kwargs;
        wind_direction := c_wind_direction kwargs;
        precipitation := inject_Z (c_precipitation kwargs);
        pressure := c_pressure kwargs;
        weather := weather |}.

Section Constants.
(** [constants.WEATHER_CODE_MAP], a dict from integer codes to labels. *)
Variable WEATHER_CODE_MAP : gmap Z string.
(** [datetime.fromisoformat]; [None] stands for its [ValueError]. *)
Variable fromisoformat : string → option datetime.

(** [[WEATHER_CODE_MAP.get(i) for i in codes]]; [dict.get] without a
    default gives [None] for a missing key. *)
Definition serialize_weather_code (codes : list Z) : list (option string) :=
  map (λ i, WEATHER_CODE_MAP !! i) codes.

(** [[datetime.fromisoformat(i) for i in time]] *)
Definition serialize_time (time : list string) : pyresult (list datetime) :=
  traverse (λ i, or_raise SerializationError (fromisoformat i)) time.

(** [ValidationService(WeatherMinutelySchemaIn)]: construction of the
    model, then [model_dump]. *)
Definition validate_minutely (kwargs : MinutelyPayload) : pyresult MinutelyData :=
  time ← or_raise ValidationError (p_time kwargs);
  temperature_2m ← or_raise ValidationError (p_temperature_2m kwargs);
  precipitation ← or_raise ValidationError (p_precipitation kwargs);
  wind_speed_10m ← or_raise ValidationError (p_wind_speed_10m kwargs);
  wind_direction_10m ← or_raise ValidationError (p_wind_direction_10m kwargs);
  weather_code ← or_raise ValidationError (p_weather_code kwargs);
  time' ← serialize_time time;
  Ok {| m_time := time';
        m_temperature := temperature_2m;
        m_precipitation := precipitation;
        m_wind_speed := wind_speed_10m;
        m_wind_direction := serialize_wind_direction wind_direction_10m;
        m_weather := serialize_weather_code weather_code |}.

(** [ValidationService(WeatherHourlySchemaIn)] *)
Definition validate_hourly (kwargs : HourlyPayload) : pyresult HourlyData :=
  time ← or_raise ValidationError (p_hourly_time kwargs);
  surface_pressure ← or_raise ValidationError (p_surface_pressure kwargs);
  time' ← serialize_time time;
  Ok {| h_time := time';
        h_pressure := serialize_surface_pressure surface_pressure |}.
End Constants.

End Schema.

(** ** [models.py] *)

Module Models.

(** A row of the table [weather_record], as a read returns it.  [id] is the
    primary key; [created_at] is a nullable column filled by the server
    default [func.now()], kept as a count of seconds.  [temperature] and
    [precipitation] are [Integer] columns ([Mapped[int]]) into which the
    program writes floats: what such a column then holds is for the backend
    to decide, see [Services.create]. *)
Record WeatherRecord : Type := {
  id : Z;
  temperature : Q;
  wind_speed : Q;
  wind_direction : string;
  precipitation : Q;
  weather : string;
  pressure : Q;
  created_at : option Z
}.

End Models.

(** ** [services.py] *)

Module Services.
Import Py Schema.

(** *** [DatabaseRepository] *)

(** The table behind the engine: its rows, in no particular order. *)
Definition Database : Type := list Models.WeatherRecord.

(** The key that the autoincrementing primary key gives to the next row:
    one above the greatest key, 1 in an empty table.  (The keys of a table
    that the program has written are positive; the program itself never
    chooses a key.) *)
Definition next_id (db : Database) : Z :=
  foldr Z.max 0 (map Models.id db) + 1.

(** [DatabaseRepository.create]: one row is added and committed; the key
    and [created_at] come from the database ([server_now] is the reading of
    [func.now()]).  [commit] is the exception that [session.commit()]
    raises, if it raises one (a backend that refuses a float for an
    [Integer] column raises there); nothing is written then.
    [integer_column] is what an [Integer] column of the backend holds once a
    float has been written into it: the float itself, or the integer the
    backend casts it to. *)
Definition create (integer_column : Q → Q) (commit : option exn)
    (db : Database) (server_now : Z)
    (kwargs : WeatherRecordCreateSchema) : pyresult Database :=
  match commit with
  | Some e => Raise e
  | None =>
      Ok (db ++ [ {| Models.id := next_id db;
                     Models.temperature :=
                       integer_column (Schema.temperature kwargs);
                     Models.wind_speed := Schema.wind_speed kwargs;
                     Models.wind_direction := Schema.wind_direction kwargs;
                     Models.precipitation :=
                       integer_column (Schema.precipitation kwargs);
                     Models.weather := Schema.weather kwargs;
                     Models.pressure := Schema.pressure kwargs;
                     Models.created_at := Some server_now |} ])
  end.

Inductive direction : Type := Asc | Desc.

(** The [ORDER BY] texts that the program hands to [text(...)]: the
    default ["id"] and the export's ["id desc"] (and ["id asc"]).  Any other
    text is not interpreted: the database decides what it makes of it, and
    no statement below is about one. *)
Definition sql_order_by (s : string) : option direction :=
  if String.eqb s "id" then Some Asc
  else if String.eqb s "id asc" then Some Asc
  else if String.eqb s "id desc" then Some Desc
  else None.

Definition id_le (r1 r2 : Models.WeatherRecord) : Prop :=
  Models.id r1 ≤ Models.id r2.

#[global] Instance id_le_dec : RelDecision id_le :=
  λ r1 r2, Z_le_dec (Models.id r1) (Models.id r2).

Definition order_rows (d : direction) (db : Database) : list Models.WeatherRecord :=
  match d with
  | Asc => merge_sort id_le db
  | Desc => merge_sort (flip id_le) db
  end.

(** [.limit(limit)]; [None] puts no bound. *)
Definition sql_limit {A} (limit : option nat) (rows : list A) : list A :=
  match limit with
  | Some n => take n rows
  | None => rows
  end.

(** [order_by if order_by else "id"]: [None] and the empty string are
    falsy. *)
Definition order_by_or_id (order_by : option string) : string :=
  match order_by with
  | None | Some EmptyString => "id"
  | Some s => s
  end.

(** [DatabaseRepository.get_all].  [scalars] is the exception that
    [session.scalars(...)] raises, if the read fails. *)
Definition get_all (scalars : option exn) (db : Database)
    (order_by : option string) (limit : option nat)
    : pyresult (list Models.WeatherRecord) :=
  match scalars with
  | Some e => Raise e
  | None =>
      d ← or_raise SQLAlchemyError (sql_order_by (order_by_or_id order_by));
      Ok (sql_limit limit (order_rows d db))
  end.

(** *** [CreateRecordService] *)

Definition weather_record_create_service (integer_column : Q → Q)
    (commit : option exn) (db : Database) (server_now : Z)
    (kwargs : CreateData) : pyresult Database :=
  validated_data ← validate_create kwargs;
  create integer_column commit db server_now validated_data.

(** *** [GetAllRecordService] with [WeatherRecordSchemaOut] *)

(** [WeatherRecordSchemaOut(...).model_dump(by_alias=True)]: a row of the
    spreadsheet. *)
Record ExportRow : Type := {
  x_temperature : Q;
  x_wind_speed : Q;
  x_wind_direction : string;
  x_precipitation : Q;
  x_pressure : Q;
  x_weather : string;
  x_created_at : Z
}.

(** [created_at: datetime] rejects [None]; [serialize_created_at] drops the
    zone and adds three hours. *)
Definition validate_out (r : Models.WeatherRecord) : pyresult ExportRow :=
  created_at ← or_raise ValidationError (Models.created_at r);
  Ok {| x_temperature := Models.temperature r;
        x_wind_speed := Models.wind_speed r;
        x_wind_direction := Models.wind_direction r;
        x_precipitation := Models.precipitation r;
        x_pressure := Models.pressure r;
        x_weather := Models.weather r;
        x_created_at := created_at + 3 * 3600 |}.

Definition weather_record_get_all_service (scalars : option exn)
    (db : Database) (order_by : option string) (limit : option nat)
    : pyresult (list ExportRow) :=
  data ← get_all scalars db order_by limit;
  traverse validate_out data.

(** *** [DownloadCreateWeatherRecordService] *)

(** The dict [{"pressure": pressure}]. *)
Record HourSample : Type := { s_pressure : Q }.

(** The [for time, pressure in zip(...)] loop from its pass number [k] on;
    [now k] is the reading of [datetime.now()] in pass [k].  Falling off the
    end of the loop returns [None]. *)
Fixpoint hour_scan (now : nat → datetime) (k : nat)
    (pairs : list (datetime * Q)) : option HourSample :=
  match pairs with
  | [] => None
  | (time, pressure) :: rest =>
      if hour time =? hour (now k) then Some {| s_pressure := pressure |}
      else hour_scan now (S k) rest
  end.

Definition _get_current_hour_data (now : nat → datetime)
    (data : HourlyData) : option HourSample :=
  hour_scan now 0 (zip (h_time data) (h_pressure data)).

(** [delta_minutes < index_min_tuple[1]], where the second component starts
    as [float("inf")], here [None]. *)
Definition lt_inf (delta_minutes : Z) (bound : option Z) : bool :=
  match bound with
  | None => true
  | Some m => delta_minutes <? m
  end.

(** The [for index, time in enumerate(data["time"])] loop from [index] on. *)
Fixpoint minute_scan (now : nat → datetime) (index : nat)
    (times : list datetime) (index_min_tuple : nat * option Z)
    : nat * option Z :=
  match times with
  | [] => index_min_tuple
  | time :: rest =>
      let delta_minutes := Z.abs (minute time - minute (now index)) in
      minute_scan now (S index) rest
        (if lt_inf delta_minutes (snd index_min_tuple)
         then (index, Some delta_minutes)
         else index_min_tuple)
  end.

(** The dict built by [result[key] = value[current_time_index]]. *)
Record MinuteSample : Type := {
  s_time : datetime;
  s_temperature : Q;
  s_precipitation : Z;
  s_wind_speed : Q;
  s_wind_direction : string;
  s_weather : option string
}.

Definition _get_current_minute_data (now : nat → datetime)
    (data : MinutelyData) : pyresult MinuteSample :=
  let current_time_index := fst (minute_scan now 0 (m_time data) (0%nat, None)) in
  time ← or_raise IndexError (m_time data !! current_time_index);
  temperature ← or_raise IndexError (m_temperature data !! current_time_index);
  precipitation ← or_raise IndexError (m_precipitation data !! current_time_index);
  wind_speed ← or_raise IndexError (m_wind_speed data !! current_time_index);
  wind_direction ← or_raise IndexError (m_wind_direction data !! current_time_index);
  weather ← or_raise IndexError (m_weather data !! current_time_index);
  Ok {| s_time := time;
        s_temperature := temperature;
        s_precipitation := precipitation;
        s_wind_speed := wind_speed;
        s_wind_direction := wind_direction;
        s_weather := weather |}.

(** [minutely_data | hourly_data]; the right operand is [None] when the
    hourly selection fell off its loop, and [dict | None] raises. *)
Definition merge (minutely_data : MinuteSample)
    (hourly_data : option HourSample) : pyresult CreateData :=
  hourly ← or_raise TypeError hourly_data;
  Ok {| c_time := s_time minutely_data;
        c_temperature := s_temperature minutely_data;
        c_precipitation := s_precipitation minutely_data;
        c_wind_speed := s_wind_speed minutely_data;
        c_wind_direction := s_wind_direction minutely_data;
        c_weather := s_weather minutely_data;
        c_pressure := s_pressure hourly |}.

(** [response.json()]: a field is [None] when the key is absent. *)
Record Response : Type := {
  hourly : option HourlyPayload;
  minutely_15 : option MinutelyPayload
}.

(** What the outside world contributes to one pass of the polling loop. *)
Record Tick : Type := {
  fetched : pyresult Response;      (* weather_aiohttp_service(session) *)
  now_hour : nat → datetime;        (* datetime.now() in the hourly scan *)
  now_minute : nat → datetime;      (* datetime.now() in the minute scan *)
  commit : option exn;              (* a failure of session.commit() *)
  server_now : Z;                   (* func.now() *)
  integer_column : Q → Q            (* what an Integer column makes of a float *)
}.

Section Constants.
Variable WEATHER_CODE_MAP : gmap Z string.
Variable fromisoformat : string → option datetime.

(** The body of [while True] up to and including the call of the create
    service; the result is the table after the pass. *)
Definition iteration (t : Tick) (db : Database) : pyresult Database :=
  response ← fetched t;
  hourly_kwargs ← or_raise KeyError (hourly response);
  hourly_data ← validate_hourly fromisoformat hourly_kwargs;
  let hourly_data := _get_current_hour_data (now_hour t) hourly_data in
  minutely_kwargs ← or_raise KeyError (minutely_15 response);
  minutely_data ← validate_minutely WEATHER_CODE_MAP fromisoformat minutely_kwargs;
  minutely_data ← _get_current_minute_data (now_minute t) minutely_data;
  create_data ← merge minutely_data hourly_data;
  weather_record_create_service (integer_column t) (commit t) db (server_now t)
    create_data.

(** What an observer sees of the polling task. *)
Inductive Event : Type :=
| Created      (* a record was committed *)
| Slept.       (* asyncio.sleep(settings.TIME_TO_REQUEST) returned *)

(** How the coroutine stands after the given ticks: still in its loop, or
    left by an exception.  [while True] has no other exit. *)
Inductive Outcome : Type :=
| Running
| Raised (e : exn).

(** [DownloadCreateWeatherRecordService.__call__] run against the given
    ticks, one per pass. *)
Fixpoint download_create_weather_record_service (ticks : list Tick)
    (db : Database) : Database * list Event * Outcome :=
  match ticks with
  | [] => (db, [], Running)
  | t :: ticks' =>
      match iteration t db with
      | Raise e => (db, [], Raised e)
      | Ok db' =>
          let '(db'', events, outcome) :=
            download_create_weather_record_service ticks' db' in
          (db'', Created :: Slept :: events, outcome)
      end
  end.
End Constants.

(** *** [ExportWeatherRecordsToExcel] *)

(** ["да"], ["yes"], ["y"], ["д"] *)
Definition AFFIRMATIVE : list str :=
  [ [1076; 1072]; [121; 101; 115]; [121]; [1076] ].

(** [input_data.strip().lower() in [...]] *)
Definition affirmative (input_data : str) : bool :=
  bool_decide (lower (strip input_data) ∈ AFFIRMATIVE).

(** One pass of [while True] in [ExportWeatherRecordsToExcel.__call__] on
    the line read by [ainput]: [None] when the pass ends at [continue],
    otherwise the records handed to [DataFrame(...).to_excel].  [scalars] is
    the failure of the read, if it fails. *)
Definition export_iteration (scalars : option exn) (db : Database)
    (input_data : str) : pyresult (option (list ExportRow)) :=
  if negb (affirmative input_data) then Ok None
  else
    weather_records ←
      weather_record_get_all_service scalars db (Some "id desc") (Some 10%nat);
    Ok (Some weather_records).

(** What the outside world contributes to one pass of the export loop. *)
Record Prompt : Type := {
  ainput : pyresult str;            (* the line read, or the failure to read *)
  scalars : option exn              (* a failure of session.scalars(...) *)
}.

(** One pass of the export loop from the prompt on. *)
Definition export_pass (p : Prompt) (db : Database)
    : pyresult (option (list ExportRow)) :=
  input_data ← ainput p;
  export_iteration (scalars p) db input_data.

(** [ExportWeatherRecordsToExcel.__call__] run against the given prompts,
    each paired with the table as it stands when the line is read (the
    polling task writes in between).  The result lists what was handed to
    [DataFrame(...).to_excel], pass by pass. *)
Fixpoint export_weather_records_to_excel (prompts : list (Prompt * Database))
    : list (list ExportRow) * Outcome :=
  match prompts with
  | [] => ([], Running)
  | (p, db) :: prompts' =>
      match export_pass p db with
      | Raise e => ([], Raised e)
      | Ok None => export_weather_records_to_excel prompts'
      | Ok (Some weather_records) =>
          let '(exports, outcome) := export_weather_records_to_excel prompts' in
          (weather_records :: exports, outcome)
      end
  end.

End Services.

(** ** [main.py] *)

Module Main.
Import Py Services.

Inductive Process : Type :=
| Alive
| Exited.

(** What [main] does once the task group is left. *)
Inductive Cleanup : Type :=
| SessionClosed | EngineDisposed | PoolShutdown.

(** A pass of one of the two tasks of the task group. *)
Inductive Step : Type :=
| Poll (t : Tick)       (* a pass of the polling task *)
| Ask (p : Prompt).     (* a pass of the export task *)

Section Constants.
Variable WEATHER_CODE_MAP : gmap Z string.
Variable fromisoformat : string → option Py.datetime.

(** The two tasks of the task group run against the passes in the order in
    which the event loop completes them, on the one table.  An exception that
    leaves either task ends the group: the other task is cancelled. *)
Fixpoint run_tasks (steps : list Step) (db : Database)
    : Database * list Event * list (list ExportRow) * Outcome :=
  match steps with
  | [] => (db, [], [], Running)
  | Poll t :: steps' =>
      match iteration WEATHER_CODE_MAP fromisoformat t db with
      | Raise e => (db, [], [], Raised e)
      | Ok db' =>
          let '(db'', events, exports, outcome) := run_tasks steps' db' in
          (db'', Created :: Slept :: events, exports, outcome)
      end
  | Ask p :: steps' =>
      match export_pass p db with
      | Raise e => (db, [], [], Raised e)
      | Ok None => run_tasks steps' db
      | Ok (Some weather_records) =>
          let '(db', events, exports, outcome) := run_tasks steps' db in
          (db', events, weather_records :: exports, outcome)
      end
  end.

(** [main]: the table is created empty and the two tasks run in one task
    group; an exception that leaves a task leaves the group, is swallowed by
    [except Exception: pass], the [finally] block runs and [asyncio.run]
    returns. *)
Definition main_with_operator (steps : list Step)
    : Database * list Event * list (list ExportRow) * list Cleanup * Process :=
  match run_tasks steps [] with
  | (db, events, exports, Running) => (db, events, exports, [], Alive)
  | (db, events, exports, Raised _) =>
      (db, events, exports,
       [SessionClosed; EngineDisposed; PoolShutdown], Exited)
  end.

(** [main] while the export task waits for a line of input: only the
    polling task makes passes. *)
Definition main (ticks : list Tick)
    : Database * list Event * list Cleanup * Process :=
  let '(db, events, _, cleanup, process) :=
    main_with_operator (Poll <$> ticks) in
  (db, events, cleanup, process).
End Constants.

End Main.

(** ** A concrete run *)

Module Example.
Import Py Schema Services.

(** 1 January 2024 at the given hour and minute. *)
Definition at_ (h m : Z) : datetime :=
  {| year := 2024; month := 1; day := 1; hour := h; minute := m |}.

(** A clock that stands still at the given hour and minute. *)
Definition clock (h m : Z) : nat → datetime := λ _, at_ h m.

Definition WEATHER_CODE_MAP : gmap Z string :=
  {[ 0 := "Ясно"; 3 := "Пасмурно" ]}.

(** [datetime.fromisoformat] on the timestamps used below. *)
Definition fromisoformat (s : string) : option datetime :=
  if String.eqb s "2024-01-01T08:00" then Some (at_ 8 0)
  else if String.eqb s "2024-01-01T08:15" then Some (at_ 8 15)
  else if String.eqb s "2024-01-01T08:30" then Some (at_ 8 30)
  else if String.eqb s "2024-01-01T09:00" then Some (at_ 9 0)
  else None.

Definition hourly_data : HourlyData :=
  {| h_time := [at_ 7 0; at_ 8 0; at_ 9 0; at_ 8 0];
     h_pressure := [758; 759; 760; 761]%Q |}.

(** The minutes 0 and 30 are both 15 away from minute 15. *)
Definition minutely_data : MinutelyData :=
  {| m_time := [at_ 8 0; at_ 8 30; at_ 8 45];
     m_temperature := [5; 6; 7]%Q;
     m_precipitation := [0; 1; 0];
     m_wind_speed := [3; 4; 5]%Q;
     m_wind_direction := [NORTH; EAST; SOUTH];
     m_weather := [Some "Ясно"; None; Some "Пасмурно"] |}.

Definition hourly_payload : HourlyPayload :=
  {| p_hourly_time := Some ["2024-01-01T08:00"; "2024-01-01T09:00"];
     p_surface_pressure := Some [1013; 1012]%Q |}.

Definition minutely_payload (codes : list Z) : MinutelyPayload :=
  {| p_time := Some ["2024-01-01T08:00"; "2024-01-01T08:15"; "2024-01-01T08:30"];
     p_temperature_2m := Some [5; 6; 7]%Q;
     p_precipitation := Some [0; 0; 1];
     p_wind_speed_10m := Some [3; 4; 5]%Q;
     p_wind_direction_10m := Some [10; 100; 200]%Q;
     p_weather_code := Some codes |}.

Definition response (codes : list Z) : Response :=
  {| hourly := Some hourly_payload;
     minutely_15 := Some (minutely_payload codes) |}.

(** A backend that keeps the number written into an [Integer] column, and
    one that casts it to the nearest integer. *)
Definition keeps : Q → Q := λ q, q.
Definition casts : Q → Q := λ q, inject_Z (nearest_even q).

(** A pass at 08:15 in which everything succeeds. *)
Definition good_tick : Tick :=
  {| fetched := Ok (response [0; 3; 0]);
     now_hour := clock 8 15; now_minute := clock 8 15;
     commit := None; server_now := 1704086100;
     integer_column := keeps |}.

(** A pass whose request fails. *)
Definition failed_fetch_tick : Tick :=
  {| fetched := Raise ClientError;
     now_hour := clock 8 15; now_minute := clock 8 15;
     commit := None; server_now := 1704086100;
     integer_column := keeps |}.

(** A pass at 10:15: the hourly series holds the hours 8 and 9 only. *)
Definition no_hour_tick : Tick :=
  {| fetched := Ok (response [0; 3; 0]);
     now_hour := clock 10 15; now_minute := clock 10 15;
     commit := None; server_now := 1704093300;
     integer_column := keeps |}.

Definition hour_sample : HourSample := {| s_pressure := 759 |}.

(** A selected sub-hourly sample whose weather code was in the lookup, and
    one whose code was not. *)
Definition minute_sample (weather : option string) : MinuteSample :=
  {| s_time := at_ 8 15; s_temperature := 6; s_precipitation := 0;
     s_wind_speed := 4; s_wind_direction := NORTH; s_weather := weather |}.

(** A selected sub-hourly sample of 5.5 degrees. *)
Definition half_degree_sample : MinuteSample :=
  {| s_time := at_ 8 15; s_temperature := 11 # 2; s_precipitation := 0;
     s_wind_speed := 4; s_wind_direction := NORTH; s_weather := Some "Ясно" |}.

(** A table with three rows, stored out of key order. *)
Definition row (key : Z) (created : option Z) : Models.WeatherRecord :=
  {| Models.id := key; Models.temperature := 5; Models.wind_speed := 3;
     Models.wind_direction := NORTH; Models.precipitation := 0;
     Models.weather := "Ясно"; Models.pressure := 759;
     Models.created_at := created |}.

Definition table : Database := [row 2 (Some 20); row 3 (Some 30); row 1 (Some 10)].

(** Twelve rows, stored out of key order, each created at its key. *)
Definition twelve : Database :=
  (λ key, row key (Some key)) <$> [5; 1; 12; 7; 3; 9; 2; 11; 4; 8; 6; 10].

(** What the two validation services make of [response [0; 3; 0]]. *)
Definition hourly_normalized : HourlyData :=
  {| h_time := [at_ 8 0; at_ 9 0]; h_pressure := [759; 759]%Q |}.

Definition minutely_normalized : MinutelyData :=
  {| m_time := [at_ 8 0; at_ 8 15; at_ 8 30];
     m_temperature := [5; 6; 7]%Q;
     m_precipitation := [0; 0; 1];
     m_wind_speed := [3; 4; 5]%Q;
     m_wind_direction := [NORTH; EAST; SOUTH];
     m_weather := [Some "Ясно"; Some "Пасмурно"; Some "Ясно"] |}.

(** The record that [good_tick] adds to an empty table. *)
Definition good_record (key : Z) : Models.WeatherRecord :=
  {| Models.id := key; Models.temperature := 6; Models.wind_speed := 4;
     Models.wind_direction := EAST; Models.precipitation := 0;
     Models.weather := "Пасмурно"; Models.pressure := 759;
     Models.created_at := Some 1704086100 |}.

End Example.

(** ** Vocabulary of the statements *)

Module Spec.
Import Py Schema Services Main.

(** Every column of the series has one entry per timestamp. *)
Definition aligned (data : MinutelyData) : Prop :=
  length (m_temperature data) = length (m_time data)
  ∧ length (m_precipitation data) = length (m_time data)
  ∧ length (m_wind_speed data) = length (m_time data)
  ∧ length (m_wind_direction data) = length (m_time data)
  ∧ length (m_weather data) = length (m_time data).

(** The sample at position [i] of the series. *)
Definition sample_at (data : MinutelyData) (i : nat) (s : MinuteSample) : Prop :=
  m_time data !! i = Some (s_time s)
  ∧ m_temperature data !! i = Some (s_temperature s)
  ∧ m_precipitation data !! i = Some (s_precipitation s)
  ∧ m_wind_speed data !! i = Some (s_wind_speed s)
  ∧ m_wind_direction data !! i = Some (s_wind_direction s)
  ∧ m_weather data !! i = Some (s_weather s).

(** Distance of a timestamp's minute from the minute [m]. *)
Definition delta (m : Z) (t : datetime) : Z := Z.abs (minute t - m).

(** [merge], then the create service, then the most recent record, the
    commit and the read succeeding. *)
Definition round_trip (integer_column : Q → Q) (db : Database)
    (server_now : Z) (minutely_data : MinuteSample) (hourly_data : HourSample)
    : pyresult (list Models.WeatherRecord) :=
  create_data ← merge minutely_data (Some hourly_data);
  db' ← weather_record_create_service integer_column None db server_now
          create_data;
  get_all None db' (Some "id desc") (Some 1%nat).

(** A bearing for which a branch of [serialize_wind_direction] fires. *)
Definition in_range (b : Q) : bool := Qleb 0 b && Qleb b 360.

(** The columns of a sub-hourly payload, all present and of one length. *)
Definition payload_columns (kwargs : MinutelyPayload) (n : nat)
    (bearings : list Q) (codes : list Z) : Prop :=
  (∃ time, p_time kwargs = Some time ∧ length time = n)
  ∧ (∃ temperature, p_temperature_2m kwargs = Some temperature
                    ∧ length temperature = n)
  ∧ (∃ precipitation, p_precipitation kwargs = Some precipitation
                      ∧ length precipitation = n)
  ∧ (∃ wind_speed, p_wind_speed_10m kwargs = Some wind_speed
                   ∧ length wind_speed = n)
  ∧ p_wind_direction_10m kwargs = Some bearings ∧ length bearings = n
  ∧ p_weather_code kwargs = Some codes ∧ length codes = n.

(** The spreadsheet row of a stored record whose [created_at] is [created]. *)
Definition export_row_of (r : Models.WeatherRecord) (created : Z) : ExportRow :=
  {| x_temperature := Models.temperature r;
     x_wind_speed := Models.wind_speed r;
     x_wind_direction := Models.wind_direction r;
     x_precipitation := Models.precipitation r;
     x_pressure := Models.pressure r;
     x_weather := Models.weather r;
     x_created_at := created + 10800 |}.

(** The sixteen spellings of the four accepted answers, capital or small
    letter by letter. *)
Definition AFFIRMATIVE_SPELLINGS : list str :=
  [ [1076; 1072]; [1044; 1072]; [1076; 1040]; [1044; 1040];
    [121; 101; 115]; [89; 101; 115]; [121; 69; 115]; [89; 69; 115];
    [121; 101; 83]; [89; 101; 83]; [121; 69; 83]; [89; 69; 83];
    [121]; [89]; [1076]; [1044] ].

(** The events of the passes that added the given rows. *)
Fixpoint events_of {A} (added : list A) : list Event :=
  match added with
  | [] => []
  | _ :: added' => Created :: Slept :: events_of added'
  end.

(** The number of passes of the polling task, and of the export task, among
    the given passes. *)
Definition polls (steps : list Step) : nat :=
  length (List.filter (λ step, match step with Poll _ => true | Ask _ => false end)
            steps).
Definition asks (steps : list Step) : nat :=
  length (List.filter (λ step, match step with Poll _ => false | Ask _ => true end)
            steps).

(** The keys [first], [first + 1], ..., one per element of the list. *)
Fixpoint keys_from {A} (first : Z) (l : list A) : list Z :=
  match l with
  | [] => []
  | _ :: l' => first :: keys_from (first + 1) l'
  end.

End Spec.

(** * Properties *)

Import Py Schema Services Main Spec.

(** ** Comparisons and floor on rationals *)

Lemma Qleb_le x y : Qleb x y = true ↔ (x <= y)%Q.
Proof. apply Qle_bool_iff. Qed.

Lemma Qltb_lt x y : Qltb x y = true ↔ (x < y)%Q.
Proof.
  unfold Qltb. rewrite negb_true_iff. split.
  - intros Hle. apply Qnot_le_lt. intros Hyx.
    apply Qle_bool_iff in Hyx. congruence.
  - intros Hlt. destruct (Qle_bool y x) eqn:E; [|done].
    apply Qle_bool_iff in E. exfalso. by apply (Qlt_not_le x y).
Qed.

Lemma Qleb_false x y : Qleb x y = false ↔ (y < x)%Q.
Proof.
  rewrite <- Qltb_lt. unfold Qltb, Qleb.
  by destruct (Qle_bool x y).
Qed.

Lemma Qltb_false x y : Qltb x y = false ↔ (y <= x)%Q.
Proof.
  rewrite <- Qleb_le. unfold Qltb, Qleb.
  by destruct (Qle_bool y x).
Qed.

(** Decides every comparison of the [if]/[elif] chain from the linear facts
    in the context. *)
Ltac decide_Qcmp :=
  repeat match goal with
  | |- context [Qltb ?x ?y] =>
      let E := fresh "E" in
      destruct (Qltb x y) eqn:E;
      [apply Qltb_lt in E | apply Qltb_false in E]
  | |- context [Qleb ?x ?y] =>
      let E := fresh "E" in
      destruct (Qleb x y) eqn:E;
      [apply Qleb_le in E | apply Qleb_false in E]
  end.

(** ** Wind direction *)

Lemma labels_distinct :
  NORTH ≠ EAST ∧ NORTH ≠ SOUTH ∧ NORTH ≠ WEST
  ∧ EAST ≠ SOUTH ∧ EAST ≠ WEST ∧ SOUTH ≠ WEST.
Proof. repeat split; discriminate. Qed.

Lemma wind_direction_label_north b :
  (0 <= b)%Q → (b <= 360)%Q → (b <= 45 ∨ 315 < b)%Q →
  wind_direction_label b = Some NORTH.
Proof.
  intros H0 H360 Hb. unfold wind_direction_label.
  decide_Qcmp; simpl; try reflexivity; exfalso; destruct Hb; lra.
Qed.

Lemma wind_direction_label_east b :
  (45 < b)%Q → (b <= 135)%Q → wind_direction_label b = Some EAST.
Proof.
  intros Hlo Hhi. unfold wind_direction_label.
  decide_Qcmp; simpl; try reflexivity; exfalso; lra.
Qed.

Lemma wind_direction_label_south b :
  (135 < b)%Q → (b <= 225)%Q → wind_direction_label b = Some SOUTH.
Proof.
  intros Hlo Hhi. unfold wind_direction_label.
  decide_Qcmp; simpl; try reflexivity; exfalso; lra.
Qed.

Lemma wind_direction_label_west b :
  (225 < b)%Q → (b <= 315)%Q → wind_direction_label b = Some WEST.
Proof.
  intros Hlo Hhi. unfold wind_direction_label.
  decide_Qcmp; simpl; try reflexivity; exfalso; lra.
Qed.

(** C5. For every bearing [b] with [0 <= b <= 360] the conversion appends
    exactly one label, one of the four; it is North exactly on
    [(315,360]] and [[0,45]], East exactly on [(45,135]], South exactly on
    [(135,225]] and West exactly on [(225,315]].  The four labels being
    pairwise different, the intervals neither leave a gap nor overlap. *)
Theorem wind_direction_four_way_partition (b : Q) :
  (0 <= b)%Q → (b <= 360)%Q →
  ∃ label,
    serialize_wind_direction [b] = [label]
    ∧ label ∈ [NORTH; EAST; SOUTH; WEST]
    ∧ (label = NORTH ↔ (b <= 45 ∨ 315 < b)%Q)
    ∧ (label = EAST ↔ (45 < b ∧ b <= 135)%Q)
    ∧ (label = SOUTH ↔ (135 < b ∧ b <= 225)%Q)
    ∧ (label = WEST ↔ (225 < b ∧ b <= 315)%Q).
Proof.
  intros H0 H360.
  destruct labels_distinct as (NE & NS & NW & ES & EW & SW).
  destruct (Qlt_le_dec 45 b) as [H45|H45];
    [destruct (Qlt_le_dec 135 b) as [H135|H135];
      [destruct (Qlt_le_dec 225 b) as [H225|H225];
        [destruct (Qlt_le_dec 315 b) as [H315|H315]|]|]|].
  - exists NORTH. simpl.
    rewrite wind_direction_label_north by (auto; lra).
    split; [done|]. split; [set_solver|].
    repeat split; try done; try (intros; exfalso; lra); auto.
  - exists WEST. simpl. rewrite wind_direction_label_west by done.
    split; [done|]. split; [set_solver|].
    repeat split; try done; try (intros [?|?]; exfalso; lra);
      try (intros; exfalso; lra).
  - exists SOUTH. simpl. rewrite wind_direction_label_south by done.
    split; [done|]. split; [set_solver|].
    repeat split; try done; try (intros [?|?]; exfalso; lra);
      try (intros; exfalso; lra).
  - exists EAST. simpl. rewrite wind_direction_label_east by done.
    split; [done|]. split; [set_solver|].
    repeat split; try done; try (intros [?|?]; exfalso; lra);
      try (intros; exfalso; lra).
  - exists NORTH. simpl.
    rewrite wind_direction_label_north by (auto; lra).
    split; [done|]. split; [set_solver|].
    repeat split; try done; try (intros; exfalso; lra); auto.
Qed.

Lemma wind_direction_four_way_partition_witness :
  ∃ label,
    serialize_wind_direction [45%Q] = [label]
    ∧ label ∈ [NORTH; EAST; SOUTH; WEST]
    ∧ (label = NORTH ↔ (45 <= 45 ∨ 315 < 45)%Q)
    ∧ (label = EAST ↔ (45 < 45 ∧ 45 <= 135)%Q)
    ∧ (label = SOUTH ↔ (135 < 45 ∧ 45 <= 225)%Q)
    ∧ (label = WEST ↔ (225 < 45 ∧ 45 <= 315)%Q).
Proof.
  apply (wind_direction_four_way_partition 45); [lra | lra].
Defined.

(** The boundary bearings named by the specification. *)
Example wind_direction_boundaries :
  serialize_wind_direction [0; 45; 450001 # 10000; 135; 225; 315; 3150001 # 10000; 360]%Q
  = [NORTH; NORTH; EAST; EAST; SOUTH; WEST; NORTH; NORTH].
Proof. reflexivity. Qed.

(** Outside [[0,360]] no branch fires and nothing is appended: the column
    gets shorter than the series. *)
Example wind_direction_out_of_range :
  serialize_wind_direction [10; -1; 361; 100]%Q = [NORTH; EAST].
Proof. reflexivity. Qed.

(** ** Weather code *)

(** C7, as the claim states it, fails: a code outside the lookup is mapped to
    [None], not to a label that stands for "unknown".  Here the lookup is
    empty and the code is 0. *)
Lemma weather_code_unknown_has_no_sentinel :
  ¬ (∀ (m : gmap Z string) (code : Z),
       m !! code = None →
       ∃ sentinel : string, serialize_weather_code m [code] = [Some sentinel]).
Proof.
  intros H. destruct (H ∅ 0) as [sentinel Hs]; [done|].
  discriminate Hs.
Qed.

(** C7, amended. The result has one entry per code, in the order of the codes;
    the entry of a code that the lookup holds is its label, and the entry of a
    code that the lookup does not hold is [None]. *)
Theorem weather_code_lookup_or_None (m : gmap Z string) (codes : list Z)
    (i : nat) (code : Z) :
  codes !! i = Some code →
  length (serialize_weather_code m codes) = length codes
  ∧ serialize_weather_code m codes !! i = Some (m !! code)
  ∧ (m !! code = None → serialize_weather_code m codes !! i = Some None)
  ∧ (∀ label, m !! code = Some label →
       serialize_weather_code m codes !! i = Some (Some label)).
Proof.
  intros Hi. unfold serialize_weather_code.
  assert (Hlk : map (λ c, m !! c) codes !! i = Some (m !! code)).
  { change (((λ c, m !! c) <$> codes) !! i = Some (m !! code)).
    by rewrite list_lookup_fmap, Hi. }
  split; [apply length_map|]. split; [done|].
  split; [intros <-; done | intros label <-; done].
Qed.

Lemma weather_code_lookup_or_None_witness :
  length (serialize_weather_code {[ 0 := "clear" ]} [0; 7]) = 2%nat
  ∧ serialize_weather_code {[ 0 := "clear" ]} [0; 7] !! 1%nat
    = Some (({[ 0 := "clear" ]} : gmap Z string) !! 7)
  ∧ ((({[ 0 := "clear" ]} : gmap Z string) !! 7 = None) →
       serialize_weather_code {[ 0 := "clear" ]} [0; 7] !! 1%nat = Some None)
  ∧ (∀ label, ({[ 0 := "clear" ]} : gmap Z string) !! 7 = Some label →
       serialize_weather_code {[ 0 := "clear" ]} [0; 7] !! 1%nat
       = Some (Some label)).
Proof.
  apply (weather_code_lookup_or_None {[ 0 := "clear" ]} [0; 7] 1 7).
  reflexivity.
Defined.

(** ** Pressure *)

Lemma float_1_333_pos : (0 < float_1_333)%Q.
Proof. reflexivity. Qed.

(** [float_1_333] is the value of the binary64 literal: mantissa
    6003298303284871, exponent -52. *)
#[warnings="-inexact-float"]
Example float_1_333_is_the_literal :
  Prim2SF 1.333%float = S754_finite false 6003298303284871 (-52)
  ∧ float_1_333 = 6003298303284871 # 2 ^ 52.
Proof. split; vm_compute; reflexivity. Qed.

(** The literal lies below 1333/1000. *)
Lemma float_1_333_below : (float_1_333 < 1333 # 1000)%Q.
Proof. reflexivity. Qed.

(** *** Rounding to binary64 *)

Lemma two_neq_0 : ~ (2 == 0)%Q.
Proof. discriminate. Qed.

Lemma pow2_pos e : (0 < 2 ^ e)%Q.
Proof. apply Qpower_0_lt. reflexivity. Qed.

Lemma pow2_Z n : 0 <= n -> (2 ^ n == inject_Z (2 ^ n))%Q.
Proof. intros Hn. symmetry. apply (Zpower_Qpower 2 n Hn). Qed.

Lemma ilog2_lower q : (0 < q)%Q -> (2 ^ ilog2 q <= q)%Q.
Proof.
  intros Hq. unfold ilog2.
  destruct (Qle_bool (2 ^ (Z.log2 (Qnum q) - Z.log2 (Z.pos (Qden q)))) q) eqn:E.
  - apply Qle_bool_iff; exact E.
  - destruct q as [a b]. simpl Qnum in *. simpl Qden in *.
    assert (Ha : 0 < a) by (unfold Qlt in Hq; simpl in Hq; lia).
    pose proof (Z.log2_spec a Ha) as [Hla _].
    pose proof (Z.log2_spec (Z.pos b) eq_refl) as [_ Hlb].
    pose proof (Z.log2_nonneg a) as Hla0.
    pose proof (Z.log2_nonneg (Z.pos b)) as Hlb0.
    set (la := Z.log2 a) in *. set (lb := Z.log2 (Z.pos b)) in *.
    replace (la - lb - 1) with (la - Z.succ lb) by lia.
    rewrite (Qpower_minus 2 la (Z.succ lb) two_neq_0).
    rewrite (pow2_Z la Hla0), (pow2_Z (Z.succ lb)) by lia.
    rewrite (Qmake_Qdiv a b).
    assert (H1 : (0 < inject_Z (2 ^ Z.succ lb))%Q).
    { rewrite <- pow2_Z by lia. apply pow2_pos. }
    assert (H2 : (0 < inject_Z (Z.pos b))%Q) by reflexivity.
    apply Qle_shift_div_r; [assumption|].
    unfold Qdiv. rewrite <- Qmult_assoc, (Qmult_comm (/ _)), Qmult_assoc.
    apply Qle_shift_div_l; [assumption|].
    rewrite <- !inject_Z_mult, <- Zle_Qle. nia.
Qed.

Lemma ilog2_upper q : (0 < q)%Q -> (q < 2 ^ (ilog2 q + 1))%Q.
Proof.
  intros Hq. unfold ilog2.
  destruct (Qle_bool (2 ^ (Z.log2 (Qnum q) - Z.log2 (Z.pos (Qden q)))) q) eqn:E.
  - destruct q as [a b]. simpl Qnum in *. simpl Qden in *.
    assert (Ha : 0 < a) by (unfold Qlt in Hq; simpl in Hq; lia).
    pose proof (Z.log2_spec a Ha) as [_ Hla].
    pose proof (Z.log2_spec (Z.pos b) eq_refl) as [Hlb _].
    pose proof (Z.log2_nonneg a) as Hla0.
    pose proof (Z.log2_nonneg (Z.pos b)) as Hlb0.
    set (la := Z.log2 a) in *. set (lb := Z.log2 (Z.pos b)) in *.
    replace (la - lb + 1) with (Z.succ la - lb) by lia.
    rewrite (Qpower_minus 2 (Z.succ la) lb two_neq_0).
    rewrite (pow2_Z lb Hlb0), (pow2_Z (Z.succ la)) by lia.
    rewrite (Qmake_Qdiv a b).
    assert (H1 : (0 < inject_Z (2 ^ lb))%Q).
    { rewrite <- pow2_Z by lia. apply pow2_pos. }
    assert (H2 : (0 < inject_Z (Z.pos b))%Q) by reflexivity.
    apply Qlt_shift_div_l; [assumption|].
    unfold Qdiv. rewrite <- Qmult_assoc, (Qmult_comm (/ _)), Qmult_assoc.
    apply Qlt_shift_div_r; [assumption|].
    rewrite <- !inject_Z_mult, <- Zlt_Qlt. nia.
  - replace (Z.log2 (Qnum q) - Z.log2 (Z.pos (Qden q)) - 1 + 1)
      with (Z.log2 (Qnum q) - Z.log2 (Z.pos (Qden q))) by lia.
    apply Qnot_le_lt. intros H. apply Qle_bool_iff in H. congruence.
Qed.

Lemma nearest_even_error m :
  (- (1 # 2) <= inject_Z (nearest_even m) - m <= 1 # 2)%Q.
Proof.
  unfold nearest_even.
  pose proof (Qfloor_le m) as Hlo. pose proof (Qlt_floor m) as Hhi.
  rewrite inject_Z_plus in Hhi. change (inject_Z 1) with 1%Q in Hhi.
  destruct (Qcompare (m - inject_Z (Qfloor m)) (1 # 2)) eqn:E.
  - apply Qeq_alt in E.
    destruct (Z.even (Qfloor m)); rewrite ?inject_Z_plus;
      change (inject_Z 1) with 1%Q; lra.
  - apply Qlt_alt in E. lra.
  - apply Qgt_alt in E. rewrite inject_Z_plus.
    change (inject_Z 1) with 1%Q. lra.
Qed.

Lemma pow2_52 : (2 ^ 52 == 4503599627370496)%Q.
Proof. reflexivity. Qed.

Lemma round_pos_error q :
  (0 < q)%Q →
  (- (q * (1 # 9007199254740992)) <= round_pos q - q
   <= q * (1 # 9007199254740992))%Q.
Proof.
  intros Hq. unfold round_pos.
  pose proof (ilog2_lower q Hq) as Hlow.
  pose proof (pow2_pos (ilog2 q - 52)) as Hu.
  assert (Hulp : (2 ^ (ilog2 q - 52) * 4503599627370496 == 2 ^ ilog2 q)%Q).
  { rewrite (Qpower_minus 2 _ _ two_neq_0), pow2_52. field. }
  pose proof (nearest_even_error (q / 2 ^ (ilog2 q - 52))) as Hk.
  set (u := (2 ^ (ilog2 q - 52))%Q) in *.
  set (k := inject_Z (nearest_even (q / u))) in *.
  assert (Hm : (q / u * u == q)%Q) by (field; lra).
  set (m := (q / u)%Q) in *.
  nra.
Qed.

Lemma round64_comp q q' : (q == q')%Q → round64 q = round64 q'.
Proof. intros H. unfold round64. by rewrite (Qred_complete q q' H). Qed.

Lemma round64_error q :
  (- (Qabs q * (1 # 9007199254740992)) <= round64 q - q
   <= Qabs q * (1 # 9007199254740992))%Q.
Proof.
  unfold round64. rewrite Qred_correct.
  pose proof (Qred_correct q) as Hred. set (r := Qred q) in *.
  rewrite <- Hred.
  destruct (Qcompare r 0) eqn:E.
  - apply Qeq_alt in E. rewrite (Qabs_pos r) by lra. lra.
  - apply Qlt_alt in E. rewrite (Qabs_neg r) by lra.
    pose proof (round_pos_error (- r)) as H. lra.
  - apply Qgt_alt in E. rewrite (Qabs_pos r) by lra.
    pose proof (round_pos_error r E) as H. lra.
Qed.

Lemma nearest_even_Z z : nearest_even (inject_Z z) = z.
Proof.
  unfold nearest_even. rewrite Qfloor_Z.
  assert (E : Qcompare (inject_Z z - inject_Z z) (1 # 2) = Lt).
  { apply (proj1 (Qlt_alt _ _)). generalize (inject_Z z). intros y. lra. }
  by rewrite E.
Qed.

Lemma nearest_even_comp m m' : (m == m')%Q → nearest_even m = nearest_even m'.
Proof.
  intros H. unfold nearest_even. rewrite (Qfloor_comp m m' H).
  assert (E : (m - inject_Z (Qfloor m') == m' - inject_Z (Qfloor m'))%Q)
    by (by rewrite H).
  by rewrite (Qcompare_comp _ _ E _ _ (Qeq_refl (1 # 2))).
Qed.

Lemma Qred_inject_Z z : Qred (inject_Z z) = inject_Z z.
Proof.
  unfold Qred, inject_Z.
  pose proof (Z.ggcd_gcd z 1) as Hg.
  pose proof (Z.ggcd_correct_divisors z 1) as Hd.
  destruct (Z.ggcd z 1) as [g [a b]]. simpl in *.
  rewrite Z.gcd_1_r in Hg. subst g. destruct Hd as [Ha Hb].
  replace a with z by lia. replace b with 1 by lia. reflexivity.
Qed.

(** An integer below 2^53 is a binary64 value. *)
Lemma round64_Z n :
  (0 < n < 2 ^ 53)%Z → round64 (inject_Z n) = inject_Z n.
Proof.
  intros [Hpos Hlt]. unfold round64. rewrite Qred_inject_Z.
  assert (Hq : (0 < inject_Z n)%Q) by (rewrite (Zlt_Qlt 0 n) in Hpos; exact Hpos).
  assert (E : Qcompare (inject_Z n) 0 = Gt) by (by apply (proj1 (Qgt_alt _ _))).
  rewrite E. rewrite <- (Qred_inject_Z n) at 2. apply Qred_complete.
  unfold round_pos.
  pose proof (ilog2_lower _ Hq) as Hlow.
  assert (He : ilog2 (inject_Z n) ≤ 52).
  { destruct (Z_le_gt_dec (ilog2 (inject_Z n)) 52) as [?|Hgt]; [done|exfalso].
    assert (H53 : (2 ^ 53 <= 2 ^ ilog2 (inject_Z n))%Q).
    { apply Qpower_le_compat_l; [lia | discriminate]. }
    assert (Hn : (inject_Z n < 2 ^ 53)%Q).
    { rewrite (pow2_Z 53) by lia. by rewrite <- Zlt_Qlt. }
    lra. }
  set (e := ilog2 (inject_Z n)) in *.
  assert (Hu : (2 ^ (e - 52) == / inject_Z (2 ^ (52 - e)))%Q).
  { replace (e - 52) with (- (52 - e)) by lia.
    rewrite Qpower_opp, pow2_Z by lia. reflexivity. }
  assert (Hp : (0 < inject_Z (2 ^ (52 - e)))%Q).
  { rewrite <- pow2_Z by lia. apply pow2_pos. }
  assert (Hm : (inject_Z n / 2 ^ (e - 52) == inject_Z (n * 2 ^ (52 - e)))%Q).
  { rewrite Hu, inject_Z_mult. field. lra. }
  rewrite (nearest_even_comp _ _ Hm), nearest_even_Z, Hu, inject_Z_mult.
  field. lra.
Qed.

Lemma Qfloor_unique q n :
  (inject_Z n <= q)%Q → (q < inject_Z n + 1)%Q → Qfloor q = n.
Proof.
  intros Hlo Hhi.
  pose proof (Qfloor_le q) as Hf. pose proof (Qlt_floor q) as Hf'.
  rewrite inject_Z_plus in Hf'. change (inject_Z 1) with 1%Q in Hf'.
  assert (H1 : n < Qfloor q + 1).
  { rewrite Zlt_Qlt, inject_Z_plus. change (inject_Z 1) with 1%Q.
    set (a := inject_Z n) in *. set (b := inject_Z (Qfloor q)) in *.
    clearbody a b. lra. }
  assert (H2 : Qfloor q < n + 1).
  { rewrite Zlt_Qlt, inject_Z_plus. change (inject_Z 1) with 1%Q.
    set (a := inject_Z n) in *. set (b := inject_Z (Qfloor q)) in *.
    clearbody a b. lra. }
  lia.
Qed.

Lemma inject_Z_pred n : (inject_Z (n - 1) == inject_Z n - 1)%Q.
Proof.
  unfold Z.sub. rewrite inject_Z_plus, inject_Z_opp. reflexivity.
Qed.

Lemma round64_0 : round64 0 = 0%Q.
Proof. reflexivity. Qed.

Lemma floordiv_exact x :
  (0 <= x)%Q → (x <= 562949953421312)%Q →
  floordiv x float_1_333 = inject_Z (Qfloor (x / float_1_333)).
Proof.
  intros Hx0 Hx.
  assert (Hq : (x / float_1_333 * float_1_333 == x)%Q) by (field; discriminate).
  pose proof (Qfloor_le (x / float_1_333)) as Hlo.
  pose proof (Qlt_floor (x / float_1_333)) as Hhi.
  rewrite inject_Z_plus in Hhi. change (inject_Z 1) with 1%Q in Hhi.
  assert (Hq0 : (0 <= x / float_1_333)%Q).
  { apply Qle_shift_div_l; [reflexivity | lra]. }
  assert (Hn0 : 0 ≤ Qfloor (x / float_1_333)).
  { change 0 with (Qfloor 0). by apply Qfloor_resp_le. }
  unfold floordiv, fmod, trunc, fdiv, fsub, fadd, ffloor.
  rewrite (proj2 (Qle_bool_iff 0 _) Hq0).
  set (n := Qfloor (x / float_1_333)) in *.
  assert (HN0 : (0 <= inject_Z n)%Q).
  { change (inject_Z 0 <= inject_Z n)%Q. by rewrite <- Zle_Qle. }
  set (q := (x / float_1_333)%Q) in *.
  set (N := inject_Z n) in *.
  unfold float_1_333 in *.
  set (r := (x - N * (6003298303284871 # 4503599627370496))%Q).
  assert (Hr : (0 <= r)%Q) by (unfold r; lra).
  assert (Hadj : negb (Qeq_bool r 0)
                 && negb (Bool.eqb
                            (Qltb (6003298303284871 # 4503599627370496) 0)
                            (Qltb r 0)) = false).
  { rewrite (proj2 (Qltb_false r 0) Hr). apply andb_false_r. }
  rewrite Hadj.
  destruct (Z.eq_dec n 0) as [Hz|Hnz].
  - assert (E1 : round64 (x - r) = 0%Q).
    { rewrite <- round64_0. apply round64_comp. unfold r, N. rewrite Hz. ring. }
    rewrite E1.
    assert (E2 : round64 (0 / (6003298303284871 # 4503599627370496)) = 0%Q)
      by reflexivity.
    rewrite E2. simpl. unfold N. by rewrite Hz.
  - assert (HN1 : (1 <= N)%Q).
    { change (inject_Z 1 <= inject_Z n)%Q. rewrite <- Zle_Qle. lia. }
    assert (HxrN : (x - r == N * (6003298303284871 # 4503599627370496))%Q)
      by (unfold r; ring).
    pose proof (round64_error (x - r)) as EA.
    rewrite (Qabs_pos (x - r)) in EA by lra.
    set (A := round64 (x - r)) in *.
    assert (HB : (A / (6003298303284871 # 4503599627370496)
                  * (6003298303284871 # 4503599627370496) == A)%Q)
      by (field; discriminate).
    set (B := (A / (6003298303284871 # 4503599627370496))%Q) in *.
    pose proof (round64_error B) as ED.
    rewrite (Qabs_pos B) in ED by lra.
    set (D := round64 B) in *.
    assert (HD : (N - (3 # 16) <= D <= N + (3 # 16))%Q) by lra.
    assert (HDnz : Qeq_bool D 0 = false).
    { destruct (Qeq_bool D 0) eqn:E; [|done]. apply Qeq_bool_iff in E. lra. }
    rewrite HDnz. simpl negb. cbv iota.
    assert (Hn53 : 0 < n < 2 ^ 53).
    { split; [lia|]. rewrite Zlt_Qlt. fold N.
      change (inject_Z (2 ^ 53)) with 9007199254740992%Q. lra. }
    destruct (Qlt_le_dec D N) as [Hlt|Hge].
    + assert (Hf : Qfloor D = n - 1).
      { apply Qfloor_unique; rewrite inject_Z_pred; fold N; lra. }
      rewrite Hf.
      pose proof (round64_error (D - inject_Z (n - 1))) as ES.
      assert (Hs : (D - inject_Z (n - 1) == D - N + 1)%Q).
      { rewrite inject_Z_pred. fold N. ring. }
      rewrite (Qabs_pos (D - inject_Z (n - 1))) in ES by lra.
      set (T := round64 (D - inject_Z (n - 1))) in *.
      rewrite (proj2 (Qltb_lt (1 # 2) T)) by lra.
      unfold N. rewrite <- (round64_Z n Hn53). apply round64_comp.
      rewrite inject_Z_pred. ring.
    + assert (Hf : Qfloor D = n).
      { apply Qfloor_unique; fold N; lra. }
      rewrite Hf. fold N.
      pose proof (round64_error (D - N)) as ES.
      rewrite (Qabs_pos (D - N)) in ES by lra.
      set (T := round64 (D - N)) in *.
      by rewrite (proj2 (Qltb_false (1 # 2) T)) by lra.
Qed.

(** C6, as the claim states it, fails at its own example: 1333 is converted to
    1000, not to 999 (the literal [1.333] denotes a binary64 value below
    1333/1000, so the quotient is not below 1000). *)
Lemma pressure_1333_is_1000 :
  serialize_surface_pressure [1333%Q] = [1000%Q]
  ∧ serialize_surface_pressure [1333%Q] ≠ [999%Q].
Proof. split; [vm_compute; reflexivity | vm_compute; discriminate]. Qed.

(** C6, amended. For every pressure [x] with [0 <= x <= 2^49] the conversion
    is the truncating one: the result is the integer [n] with
    [n * 1.333 <= x < (n + 1) * 1.333], where [1.333] is the binary64 value
    of the literal; it sends 1333 to 1000, and 1332.9 to 999 where a rounding
    conversion would give 1000.  (Far above that range the roundings of
    binary64 take the result away from the floor of the quotient.) *)
Theorem pressure_conversion_truncates (x : Q) :
  (0 <= x)%Q → (x <= 562949953421312)%Q →
  (∃ n : Z,
     serialize_surface_pressure [x] = [inject_Z n]
     ∧ (inject_Z n * float_1_333 <= x)%Q
     ∧ (x < (inject_Z n + 1) * float_1_333)%Q)
  ∧ serialize_surface_pressure [1333%Q] = [1000%Q]
  ∧ serialize_surface_pressure [13329 # 10] = [999%Q].
Proof.
  intros Hx0 Hx. split; [|split; vm_compute; reflexivity].
  exists (Qfloor (x / float_1_333)). split.
  - simpl. by rewrite floordiv_exact.
  - assert (Hq : (x / float_1_333 * float_1_333 == x)%Q) by (field; discriminate).
    pose proof (Qfloor_le (x / float_1_333)) as Hlo.
    pose proof (Qlt_floor (x / float_1_333)) as Hhi.
    rewrite inject_Z_plus in Hhi. change (inject_Z 1) with 1%Q in Hhi.
    set (N := inject_Z (Qfloor (x / float_1_333))) in *.
    set (q := (x / float_1_333)%Q) in *.
    unfold float_1_333 in *. clearbody N q. lra.
Qed.

Lemma pressure_conversion_truncates_witness :
  (∃ n : Z,
     serialize_surface_pressure [1013%Q] = [inject_Z n]
     ∧ (inject_Z n * float_1_333 <= 1013)%Q
     ∧ (1013 < (inject_Z n + 1) * float_1_333)%Q)
  ∧ serialize_surface_pressure [1333%Q] = [1000%Q]
  ∧ serialize_surface_pressure [13329 # 10] = [999%Q].
Proof.
  apply (pressure_conversion_truncates 1013); vm_compute; discriminate.
Defined.

(** At 10^17 the binary64 result is not the floor of the quotient. *)
Example pressure_1e17_is_rounded :
  serialize_surface_pressure [100000000000000000%Q] = [75018754688672176%Q]
  ∧ Qfloor (100000000000000000 / float_1_333) = 75018754688672170.
Proof. split; vm_compute; reflexivity. Qed.

(** The rounding agrees with the machine's on the quotients above. *)
#[warnings="-inexact-float"]
Example round64_agrees_with_binary64 :
  float_value (100000000000000000 / 1.333)%float
  = fdiv 100000000000000000 float_1_333
  ∧ float_value (1013 / 1.333)%float = fdiv 1013 float_1_333
  ∧ float_value (1 / 3)%float = fdiv 1 3
  ∧ float_value (0.1 + 0.2)%float
    = fadd (float_value 0.1%float) (float_value 0.2%float).
Proof. repeat split; vm_compute; reflexivity. Qed.

(** ** Hourly selection *)

Section HourScan.
Variable now : nat → datetime.
Variable h : Z.
Hypothesis now_hour_stable : ∀ k, hour (now k) = h.

Lemma hour_scan_no_match pairs k :
  Forall (λ s : datetime * Q, hour s.1 ≠ h) pairs →
  hour_scan now k pairs = None.
Proof.
  intros Hall. revert k.
  induction Hall as [|[time pressure] rest Hne _ IH]; intros k; simpl; [done|].
  rewrite now_hour_stable. simpl in Hne.
  destruct (Z.eqb_spec (hour time) h); [done | apply IH].
Qed.

Lemma hour_scan_first_match pairs k :
  Exists (λ s : datetime * Q, hour s.1 = h) pairs →
  ∃ before time pressure after,
    pairs = before ++ (time, pressure) :: after
    ∧ Forall (λ s : datetime * Q, hour s.1 ≠ h) before
    ∧ hour time = h
    ∧ hour_scan now k pairs = Some {| s_pressure := pressure |}.
Proof.
  revert k. induction pairs as [|[time pressure] rest IH]; intros k Hex.
  - by apply Exists_nil in Hex.
  - simpl. rewrite now_hour_stable.
    destruct (Z.eqb_spec (hour time) h) as [Heq|Hne].
    + exists [], time, pressure, rest. by repeat split.
    + apply Exists_cons in Hex as [Hhd|Htl]; [done|].
      destruct (IH (S k) Htl) as (before & t & p & after & -> & Hb & Ht & Hs).
      exists ((time, pressure) :: before), t, p, after.
      repeat split; [by constructor | done | done].
Qed.
End HourScan.

(** C3. Read against a clock whose hour is [h] throughout the scan, a series
    that holds a sample with hour [h] is answered with the first such sample,
    in the order of the series: the samples before it have another hour, and
    the result is the pressure of that sample. *)
Theorem hourly_selection_first_match (now : nat → datetime) (h : Z)
    (data : HourlyData) :
  (∀ k, hour (now k) = h) →
  Exists (λ s : datetime * Q, hour s.1 = h) (zip (h_time data) (h_pressure data)) →
  ∃ before time pressure after,
    zip (h_time data) (h_pressure data) = before ++ (time, pressure) :: after
    ∧ Forall (λ s : datetime * Q, hour s.1 ≠ h) before
    ∧ hour time = h
    ∧ _get_current_hour_data now data = Some {| s_pressure := pressure |}.
Proof.
  intros Hnow Hex. by apply hour_scan_first_match.
Qed.

Lemma hourly_selection_first_match_witness :
  ∃ before time pressure after,
    zip (h_time Example.hourly_data) (h_pressure Example.hourly_data)
    = before ++ (time, pressure) :: after
    ∧ Forall (λ s : datetime * Q, hour s.1 ≠ 8) before
    ∧ hour time = 8
    ∧ _get_current_hour_data (Example.clock 8 15) Example.hourly_data
      = Some {| s_pressure := pressure |}.
Proof.
  apply (hourly_selection_first_match (Example.clock 8 15) 8 Example.hourly_data).
  - intros k. reflexivity.
  - apply (bool_decide_unpack _). vm_compute. exact I.
Defined.

(** Of the two samples of hour 8 the earlier one is returned. *)
Example hourly_selection_at_8 :
  _get_current_hour_data (Example.clock 8 15) Example.hourly_data
  = Some {| s_pressure := 759 |}.
Proof. reflexivity. Qed.

(** ** Sub-hourly selection *)

Section MinuteScan.
Variable now : nat → datetime.
Variable m : Z.
Hypothesis now_minute_stable : ∀ k, minute (now k) = m.

Lemma lt_inf_trans d1 d2 bound :
  d1 < d2 → lt_inf d2 bound = true → lt_inf d1 bound = true.
Proof. destruct bound; simpl; [lia | done]. Qed.

Lemma lt_inf_split d1 d2 bound :
  lt_inf d1 bound = true → lt_inf d2 bound = false → d1 < d2.
Proof. destruct bound; simpl; [lia | done]. Qed.

(** The scan either keeps the candidate it started with, no timestamp being
    strictly nearer, or ends on the first timestamp of least distance. *)
Lemma minute_scan_spec times index best :
  (minute_scan now index times best = best
   ∧ Forall (λ t, lt_inf (delta m t) (snd best) = false) times)
  ∨ (∃ (j : nat) t,
       times !! j = Some t
       ∧ minute_scan now index times best = ((index + j)%nat, Some (delta m t))
       ∧ lt_inf (delta m t) (snd best) = true
       ∧ (∀ (j' : nat) t', (j' < j)%nat → times !! j' = Some t' → delta m t < delta m t')
       ∧ (∀ (j' : nat) t', times !! j' = Some t' → delta m t ≤ delta m t')).
Proof.
  revert index best.
  induction times as [|time rest IH]; intros index best; simpl.
  { left. by split. }
  rewrite now_minute_stable. fold (delta m time).
  destruct (lt_inf (delta m time) (snd best)) eqn:Hhead.
  - destruct (IH (S index) (index, Some (delta m time)))
      as [[Hkeep Hall] | (j & t & Hj & Hres & Hlt & Hfirst & Hmin)].
    + right. exists 0%nat, time. rewrite Hkeep, Nat.add_0_r.
      split; [done|]. split; [done|]. split; [done|]. split; [intros; lia|].
      intros [|j'] t' Hj'; simpl in Hj'.
      * injection Hj' as <-. lia.
      * rewrite Forall_forall in Hall.
        assert (Ht' : t' ∈ rest) by (apply list_elem_of_lookup; eauto).
        specialize (Hall t' Ht'). simpl in Hall. lia.
    + right. exists (S j), t. simpl in Hlt.
      assert (Hd : delta m t < delta m time) by lia.
      split; [done|]. split; [by rewrite Hres, Nat.add_succ_r|].
      split; [by eapply lt_inf_trans|]. split.
      * intros [|j'] t' Hlt' Hj'; simpl in Hj'.
        -- by injection Hj' as <-.
        -- apply (Hfirst j'); [lia | done].
      * intros [|j'] t' Hj'; simpl in Hj'.
        -- injection Hj' as <-. lia.
        -- by apply (Hmin j').
  - destruct (IH (S index) best)
      as [[Hkeep Hall] | (j & t & Hj & Hres & Hlt & Hfirst & Hmin)].
    + left. split; [done | by constructor].
    + right. exists (S j), t.
      assert (Hd : delta m t < delta m time) by by eapply lt_inf_split.
      split; [done|]. split; [by rewrite Hres, Nat.add_succ_r|].
      split; [done|]. split.
      * intros [|j'] t' Hlt' Hj'; simpl in Hj'.
        -- by injection Hj' as <-.
        -- apply (Hfirst j'); [lia | done].
      * intros [|j'] t' Hj'; simpl in Hj'.
        -- injection Hj' as <-. lia.
        -- by apply (Hmin j').
Qed.

Lemma minute_scan_first_nearest times :
  times ≠ [] →
  ∃ (i : nat) t,
    times !! i = Some t
    ∧ fst (minute_scan now 0 times (0%nat, None)) = i
    ∧ (∀ (j : nat) t', (j < i)%nat → times !! j = Some t' → delta m t < delta m t')
    ∧ (∀ (j : nat) t', times !! j = Some t' → delta m t ≤ delta m t').
Proof.
  intros Hne.
  destruct (minute_scan_spec times 0 (0%nat, None))
    as [[_ Hall] | (j & t & Hj & Hres & _ & Hfirst & Hmin)].
  - destruct times as [|time rest]; [done|].
    apply Forall_inv in Hall. discriminate Hall.
  - exists j, t. rewrite Hres. by repeat split.
Qed.
End MinuteScan.

(** C4. Read against a clock whose minute is [m] throughout the scan, a
    non-empty series with aligned columns is answered with a sample: the one
    at the first position, in the order of the series, whose minute is nearest
    to [m].  Every earlier sample is strictly farther from [m], so of two
    samples at the same distance the earlier one is returned. *)
Theorem subhourly_selection_first_nearest (now : nat → datetime) (m : Z)
    (data : MinutelyData) :
  (∀ k, minute (now k) = m) →
  m_time data ≠ [] →
  aligned data →
  ∃ (i : nat) sample,
    _get_current_minute_data now data = Ok sample
    ∧ sample_at data i sample
    ∧ (∀ (j : nat) t, (j < i)%nat → m_time data !! j = Some t →
         delta m (s_time sample) < delta m t)
    ∧ (∀ (j : nat) t, m_time data !! j = Some t →
         delta m (s_time sample) ≤ delta m t).
Proof.
  intros Hnow Hne (Htemp & Hprec & Hspeed & Hdir & Hweather).
  destruct (minute_scan_first_nearest now m Hnow (m_time data) Hne)
    as (i & t & Hi & Hidx & Hfirst & Hmin).
  assert (Hlt : (i < length (m_time data))%nat) by by eapply lookup_lt_Some.
  destruct (lookup_lt_is_Some_2 (m_temperature data) i) as [temperature Ht]; [lia|].
  destruct (lookup_lt_is_Some_2 (m_precipitation data) i) as [precip Hp]; [lia|].
  destruct (lookup_lt_is_Some_2 (m_wind_speed data) i) as [speed Hs]; [lia|].
  destruct (lookup_lt_is_Some_2 (m_wind_direction data) i) as [dir Hd]; [lia|].
  destruct (lookup_lt_is_Some_2 (m_weather data) i) as [w Hw]; [lia|].
  exists i, {| s_time := t; s_temperature := temperature;
               s_precipitation := precip; s_wind_speed := speed;
               s_wind_direction := dir; s_weather := w |}.
  split.
  - unfold _get_current_minute_data. rewrite Hidx, Hi, Ht, Hp, Hs, Hd, Hw.
    reflexivity.
  - split; [by repeat split|]. by split.
Qed.

Lemma subhourly_selection_first_nearest_witness :
  ∃ (i : nat) sample,
    _get_current_minute_data (Example.clock 8 15) Example.minutely_data = Ok sample
    ∧ sample_at Example.minutely_data i sample
    ∧ (∀ (j : nat) t, (j < i)%nat → m_time Example.minutely_data !! j = Some t →
         delta 15 (s_time sample) < delta 15 t)
    ∧ (∀ (j : nat) t, m_time Example.minutely_data !! j = Some t →
         delta 15 (s_time sample) ≤ delta 15 t).
Proof.
  apply (subhourly_selection_first_nearest (Example.clock 8 15) 15
           Example.minutely_data).
  - intros k. reflexivity.
  - discriminate.
  - vm_compute. repeat split; reflexivity.
Defined.

(** Minutes 0 and 30 are equally far from minute 15: the sample of minute 0,
    met first, is returned. *)
Example subhourly_selection_tie :
  _get_current_minute_data (Example.clock 8 15) Example.minutely_data
  = Ok {| s_time := Example.at_ 8 0; s_temperature := 5; s_precipitation := 0;
          s_wind_speed := 3; s_wind_direction := NORTH;
          s_weather := Some "Ясно" |}.
Proof. reflexivity. Qed.

(** ** The record store *)

#[local] Instance id_le_total : Total id_le.
Proof. intros r1 r2. unfold id_le. lia. Qed.

#[local] Instance id_le_trans : Transitive id_le.
Proof. intros r1 r2 r3. unfold id_le. lia. Qed.

#[local] Instance id_ge_total : Total (flip id_le).
Proof. intros r1 r2. unfold flip, id_le. lia. Qed.

#[local] Instance id_ge_trans : Transitive (flip id_le).
Proof. intros r1 r2 r3. unfold flip, id_le. lia. Qed.

Lemma order_rows_Permutation d db : order_rows d db ≡ₚ db.
Proof. destruct d; apply merge_sort_Permutation. Qed.

Lemma order_rows_elem_of d db r : r ∈ order_rows d db ↔ r ∈ db.
Proof. by rewrite order_rows_Permutation. Qed.

Lemma order_rows_desc_sorted db : StronglySorted (flip id_le) (order_rows Desc db).
Proof. apply (StronglySorted_merge_sort (flip id_le)). Qed.

Lemma order_rows_asc_sorted db : StronglySorted id_le (order_rows Asc db).
Proof. apply (StronglySorted_merge_sort id_le). Qed.

(** With pairwise different keys a sorted list is strictly sorted. *)
Lemma sorted_strict (R S : relation Models.WeatherRecord) rows :
  (∀ r1 r2, R r1 r2 → Models.id r1 ≠ Models.id r2 → S r1 r2) →
  NoDup (Models.id <$> rows) →
  StronglySorted R rows → StronglySorted S rows.
Proof.
  intros HRS Hnd Hs. induction Hs as [|r rows Hs IH Hall]; [constructor|].
  rewrite fmap_cons in Hnd. apply NoDup_cons in Hnd as [Hnotin Hnd].
  constructor; [by apply IH|].
  rewrite Forall_forall in Hall. apply Forall_forall. intros r' Hr'.
  apply HRS; [by apply Hall|].
  intros Heq. apply Hnotin. rewrite Heq. by apply list_elem_of_fmap_2.
Qed.

Lemma sorted_take (R : relation Models.WeatherRecord) n rows :
  StronglySorted R rows → StronglySorted R (take n rows).
Proof.
  intros Hs. rewrite <- (take_drop n rows) in Hs.
  by apply StronglySorted_app_1_l in Hs.
Qed.

Lemma sorted_take_before_rest (R : relation Models.WeatherRecord) n rows r r' :
  StronglySorted R rows → r' ∈ take n rows → r ∈ rows → r ∉ take n rows →
  R r' r.
Proof.
  intros Hs Hr' Hr Hnot. rewrite <- (take_drop n rows) in Hs, Hr.
  apply elem_of_app in Hr as [Hr|Hr]; [done|].
  by eapply StronglySorted_app_1_elem_of.
Qed.

Lemma NoDup_ids_Permutation (rows rows' : list Models.WeatherRecord) :
  rows ≡ₚ rows' → NoDup (Models.id <$> rows') → NoDup (Models.id <$> rows).
Proof. intros Hp. by rewrite Hp. Qed.

Lemma next_id_above db r : r ∈ db → Models.id r < next_id db.
Proof.
  unfold next_id. induction db as [|r0 db IH]; intros Hr.
  - by apply elem_of_nil in Hr.
  - simpl. apply elem_of_cons in Hr as [->|Hr]; [lia|].
    specialize (IH Hr). lia.
Qed.

(** C9. On a table whose keys are pairwise different (its primary key), a
    read that succeeds with
    ["id desc"] and limit [n] returns [min n (size of the table)] rows of
    the table in strictly descending order of key, and they are the rows of
    greatest key: a row left out has a smaller key than every row returned.
    Without an order the rows come in strictly ascending order of key, and
    without a limit all of them do. *)
Theorem get_all_ordering (db : Database) (n : nat) :
  NoDup (Models.id <$> db) →
  (∃ rows,
     get_all None db (Some "id desc") (Some n) = Ok rows
     ∧ length rows = (n `min` length db)%nat
     ∧ StronglySorted (λ r1 r2, Models.id r2 < Models.id r1) rows
     ∧ (∀ r, r ∈ rows → r ∈ db)
     ∧ (∀ r r', r ∈ db → r ∉ rows → r' ∈ rows → Models.id r < Models.id r'))
  ∧ (∀ limit, ∃ rows,
       get_all None db None limit = Ok rows
       ∧ StronglySorted (λ r1 r2, Models.id r1 < Models.id r2) rows
       ∧ (∀ r, r ∈ rows → r ∈ db)
       ∧ (limit = None → rows ≡ₚ db)).
Proof.
  intros Hnd. split.
  - exists (take n (order_rows Desc db)). split; [reflexivity|].
    assert (Hstrict : StronglySorted (λ r1 r2, Models.id r2 < Models.id r1)
                        (order_rows Desc db)).
    { apply (sorted_strict (flip id_le)); [| |apply order_rows_desc_sorted].
      - unfold flip, id_le. intros r1 r2. lia.
      - by eapply NoDup_ids_Permutation; [apply order_rows_Permutation|]. }
    split; [by rewrite length_take, (Permutation_length (order_rows_Permutation Desc db))|].
    split; [by apply sorted_take|]. split.
    + intros r Hr. apply (order_rows_elem_of Desc). by eapply subseteq_take.
    + intros r r' Hr Hnot Hr'.
      apply (sorted_take_before_rest
               (λ r1 r2, Models.id r2 < Models.id r1) n (order_rows Desc db));
        [done | done | by apply order_rows_elem_of | done].
  - intros limit. exists (sql_limit limit (order_rows Asc db)).
    split; [reflexivity|].
    assert (Hstrict : StronglySorted (λ r1 r2, Models.id r1 < Models.id r2)
                        (order_rows Asc db)).
    { apply (sorted_strict id_le); [| |apply order_rows_asc_sorted].
      - unfold id_le. intros r1 r2. lia.
      - by eapply NoDup_ids_Permutation; [apply order_rows_Permutation|]. }
    destruct limit as [k|]; simpl.
    + split; [by apply sorted_take|]. split; [|done].
      intros r Hr. apply (order_rows_elem_of Asc). by eapply subseteq_take.
    + split; [done|]. split; [|intros _; apply (order_rows_Permutation Asc)].
      intros r Hr. by apply (order_rows_elem_of Asc).
Qed.

Lemma get_all_ordering_witness :
  (∃ rows,
     get_all None Example.table (Some "id desc") (Some 2%nat) = Ok rows
     ∧ length rows = (2 `min` length Example.table)%nat
     ∧ StronglySorted (λ r1 r2, Models.id r2 < Models.id r1) rows
     ∧ (∀ r, r ∈ rows → r ∈ Example.table)
     ∧ (∀ r r', r ∈ Example.table → r ∉ rows → r' ∈ rows →
          Models.id r < Models.id r'))
  ∧ (∀ limit, ∃ rows,
       get_all None Example.table None limit = Ok rows
       ∧ StronglySorted (λ r1 r2, Models.id r1 < Models.id r2) rows
       ∧ (∀ r, r ∈ rows → r ∈ Example.table)
       ∧ (limit = None → rows ≡ₚ Example.table)).
Proof.
  apply (get_all_ordering Example.table 2).
  apply (bool_decide_unpack _). vm_compute. exact I.
Defined.

Example get_all_desc_limit_2 :
  get_all None Example.table (Some "id desc") (Some 2%nat)
  = Ok [Example.row 3 (Some 30); Example.row 2 (Some 20)].
Proof. reflexivity. Qed.

Example get_all_default_order :
  get_all None Example.table None None
  = Ok [Example.row 1 (Some 10); Example.row 2 (Some 20); Example.row 3 (Some 30)].
Proof. reflexivity. Qed.

(** ** Round trip through the store *)

Lemma order_rows_desc_head db (r : Models.WeatherRecord) :
  (∀ r', r' ∈ db → Models.id r' < Models.id r) →
  take 1 (order_rows Desc (db ++ [r])) = [r].
Proof.
  intros Habove.
  pose proof (order_rows_desc_sorted (db ++ [r])) as Hs.
  pose proof (order_rows_Permutation Desc (db ++ [r])) as Hp.
  destruct (order_rows Desc (db ++ [r])) as [|top rows] eqn:E.
  { apply Permutation_nil_l in Hp. by destruct db. }
  simpl. rewrite take_0. f_equal.
  assert (Htop : top ∈ db ++ [r]) by (rewrite <- Hp; left).
  assert (Hr : r ∈ top :: rows).
  { rewrite Hp. apply elem_of_app. right. left. }
  apply elem_of_app in Htop as [Htop|Htop];
    [|by apply list_elem_of_singleton in Htop].
  exfalso. specialize (Habove _ Htop).
  apply elem_of_cons in Hr as [->|Hr]; [lia|].
  apply StronglySorted_inv in Hs as [_ Hall].
  rewrite Forall_forall in Hall. specialize (Hall r Hr).
  unfold flip, id_le in Hall. lia.
Qed.

(** C8, as the claim states it, fails: a selected sub-hourly sample whose
    weather code is not in the lookup carries no label, the create schema
    rejects it and nothing is stored. *)
Lemma round_trip_rejects_unlabelled_sample :
  round_trip Example.keeps [] 1704086100 (Example.minute_sample None)
    Example.hour_sample
  = Raise ValidationError.
Proof. reflexivity. Qed.

(** C8, amended. For every selected hourly sample and every selected
    sub-hourly sample that carries a weather label, merging, storing through
    the create service and reading the most recent record (the commit and the
    read succeeding) returns exactly one record.  Its wind speed, wind
    direction, pressure and weather label are those of the merged input; its
    temperature and precipitation, which the table declares as integers, are
    what the backend's integer column holds of the merged input's values, the
    values themselves where the backend keeps the number written; its
    [created_at] is the store's clock reading, hence not null. *)
Theorem round_trip_returns_merged_record (integer_column : Q → Q)
    (db : Database) (server_now : Z)
    (minutely_data : MinuteSample) (hourly_data : HourSample) (label : string) :
  s_weather minutely_data = Some label →
  ∃ create_data r,
    merge minutely_data (Some hourly_data) = Ok create_data
    ∧ round_trip integer_column db server_now minutely_data hourly_data = Ok [r]
    ∧ Models.temperature r = integer_column (c_temperature create_data)
    ∧ Models.wind_speed r = c_wind_speed create_data
    ∧ Models.wind_direction r = c_wind_direction create_data
    ∧ Models.precipitation r
      = integer_column (inject_Z (c_precipitation create_data))
    ∧ Models.pressure r = c_pressure create_data
    ∧ Some (Models.weather r) = c_weather create_data
    ∧ Models.created_at r = Some server_now
    ∧ (integer_column (c_temperature create_data) = c_temperature create_data →
       Models.temperature r = c_temperature create_data)
    ∧ (integer_column (inject_Z (c_precipitation create_data))
       = inject_Z (c_precipitation create_data) →
       Models.precipitation r = inject_Z (c_precipitation create_data)).
Proof.
  intros Hlabel. eexists _, _. split; [reflexivity|]. split.
  - unfold round_trip, weather_record_create_service, validate_create. simpl.
    rewrite Hlabel. simpl. unfold get_all. simpl.
    change (merge_sort (flip id_le)) with (order_rows Desc).
    rewrite order_rows_desc_head; [reflexivity|].
    intros r' Hr'. simpl. by apply next_id_above.
  - simpl. rewrite Hlabel. by repeat split.
Qed.

Lemma round_trip_returns_merged_record_witness :
  ∃ create_data r,
    merge (Example.minute_sample (Some "Ясно")) (Some Example.hour_sample)
    = Ok create_data
    ∧ round_trip Example.casts Example.table 1704086100
        (Example.minute_sample (Some "Ясно")) Example.hour_sample = Ok [r]
    ∧ Models.temperature r = Example.casts (c_temperature create_data)
    ∧ Models.wind_speed r = c_wind_speed create_data
    ∧ Models.wind_direction r = c_wind_direction create_data
    ∧ Models.precipitation r
      = Example.casts (inject_Z (c_precipitation create_data))
    ∧ Models.pressure r = c_pressure create_data
    ∧ Some (Models.weather r) = c_weather create_data
    ∧ Models.created_at r = Some 1704086100
    ∧ (Example.casts (c_temperature create_data) = c_temperature create_data →
       Models.temperature r = c_temperature create_data)
    ∧ (Example.casts (inject_Z (c_precipitation create_data))
       = inject_Z (c_precipitation create_data) →
       Models.precipitation r = inject_Z (c_precipitation create_data)).
Proof.
  apply (round_trip_returns_merged_record Example.casts Example.table 1704086100
           (Example.minute_sample (Some "Ясно")) Example.hour_sample "Ясно").
  reflexivity.
Defined.

(** With a backend that casts, a temperature of 5.5 comes back as 6; with
    one that keeps the number written it comes back as 5.5. *)
Example round_trip_casts_temperature :
  round_trip Example.casts [] 0 Example.half_degree_sample Example.hour_sample
  = Ok [ {| Models.id := 1; Models.temperature := 6; Models.wind_speed := 4;
            Models.wind_direction := NORTH; Models.precipitation := 0;
            Models.weather := "Ясно"; Models.pressure := 759;
            Models.created_at := Some 0 |} ]
  ∧ round_trip Example.keeps [] 0 Example.half_degree_sample Example.hour_sample
    = Ok [ {| Models.id := 1; Models.temperature := 11 # 2;
              Models.wind_speed := 4; Models.wind_direction := NORTH;
              Models.precipitation := 0; Models.weather := "Ясно";
              Models.pressure := 759; Models.created_at := Some 0 |} ].
Proof. split; vm_compute; reflexivity. Qed.

(** ** The polling loop *)

Lemma or_raise_Raise {A} (e e' : exn) (o : option A) :
  or_raise e o = Raise e' → e' = e.
Proof. destruct o; simpl; [discriminate | congruence]. Qed.

Lemma traverse_or_raise_Raise {A B} (e e' : exn) (f : A → option B) l :
  traverse (λ a, or_raise e (f a)) l = Raise e' → e' = e.
Proof.
  induction l as [|a l IH]; simpl; [discriminate|].
  destruct (f a); simpl; [|congruence].
  destruct (traverse _ l); simpl; [discriminate|].
  intros [= <-]. by apply IH.
Qed.

Section Loop.
Variable WEATHER_CODE_MAP : gmap Z string.
Variable fromisoformat : string → option datetime.

Local Abbreviation run :=
  (download_create_weather_record_service WEATHER_CODE_MAP fromisoformat).
Local Abbreviation pass := (iteration WEATHER_CODE_MAP fromisoformat).

(** The passes after a prefix that did not raise start from the table that the
    prefix left. *)
Lemma run_app pre rest db db1 events :
  run pre db = (db1, events, Running) →
  run (pre ++ rest) db
  = let '(db2, events2, outcome) := run rest db1 in
    (db2, events ++ events2, outcome).
Proof.
  revert db db1 events.
  induction pre as [|t pre IH]; intros db db1 events; simpl.
  - intros [= <- <-]. by destruct (run rest db) as [[? ?] ?].
  - destruct (pass t db) as [db'|e]; [|discriminate].
    destruct (run pre db') as [[db2 events2] outcome] eqn:Hpre.
    intros [= <- <- ->].
    rewrite (IH db' db2 events2 Hpre).
    by destruct (run rest db2) as [[? ?] ?].
Qed.

Lemma validate_minutely_Raise kwargs e :
  validate_minutely WEATHER_CODE_MAP fromisoformat kwargs = Raise e →
  e = ValidationError ∨ e = SerializationError.
Proof.
  unfold validate_minutely, serialize_time.
  destruct (p_time kwargs); simpl; [|intros [= <-]; by left].
  destruct (p_temperature_2m kwargs); simpl; [|intros [= <-]; by left].
  destruct (p_precipitation kwargs); simpl; [|intros [= <-]; by left].
  destruct (p_wind_speed_10m kwargs); simpl; [|intros [= <-]; by left].
  destruct (p_wind_direction_10m kwargs); simpl; [|intros [= <-]; by left].
  destruct (p_weather_code kwargs); simpl; [|intros [= <-]; by left].
  destruct (traverse _ _) eqn:Ht; simpl; [discriminate|].
  intros [= <-]. right. by eapply traverse_or_raise_Raise.
Qed.

Lemma get_current_minute_data_Raise now data e :
  _get_current_minute_data now data = Raise e → e = IndexError.
Proof.
  unfold _get_current_minute_data.
  generalize (minute_scan now 0 (m_time data) (0%nat, None)).1. intros i.
  destruct (m_time data !! i); simpl; [|by intros [= <-]].
  destruct (m_temperature data !! i); simpl; [|by intros [= <-]].
  destruct (m_precipitation data !! i); simpl; [|by intros [= <-]].
  destruct (m_wind_speed data !! i); simpl; [|by intros [= <-]].
  destruct (m_wind_direction data !! i); simpl; [|by intros [= <-]].
  destruct (m_weather data !! i); simpl; [|by intros [= <-]].
  discriminate.
Qed.
End Loop.

(** With the export task idle the task group does what the polling task
    does. *)
Lemma run_tasks_poll WEATHER_CODE_MAP fromisoformat ticks db :
  run_tasks WEATHER_CODE_MAP fromisoformat (Poll <$> ticks) db
  = let '(db', events, outcome) :=
      download_create_weather_record_service
        WEATHER_CODE_MAP fromisoformat ticks db in
    (db', events, [], outcome).
Proof.
  revert db. induction ticks as [|t ticks IH]; intros db; simpl; [done|].
  destruct (iteration WEATHER_CODE_MAP fromisoformat t db) as [db'|e]; [|done].
  change (map Poll ticks) with (Poll <$> ticks). rewrite IH.
  by destruct (download_create_weather_record_service _ _ ticks db')
    as [[? ?] ?].
Qed.

Lemma main_polling WEATHER_CODE_MAP fromisoformat ticks :
  main WEATHER_CODE_MAP fromisoformat ticks
  = match download_create_weather_record_service
            WEATHER_CODE_MAP fromisoformat ticks [] with
    | (db, events, Running) => (db, events, [], Alive)
    | (db, events, Raised _) =>
        (db, events, [SessionClosed; EngineDisposed; PoolShutdown], Exited)
    end.
Proof.
  unfold main, main_with_operator. rewrite run_tasks_poll.
  by destruct (download_create_weather_record_service _ _ ticks [])
    as [[? ?] [|?]].
Qed.

(** C1, as the claim states it, fails: the request of the first pass fails,
    and the coroutine is left by that exception without having slept; the
    second pass, which would succeed, never runs, and [main] returns. *)
Lemma failed_fetch_ends_polling :
  download_create_weather_record_service
    Example.WEATHER_CODE_MAP Example.fromisoformat
    [Example.failed_fetch_tick; Example.good_tick] []
  = ([], [], Raised ClientError)
  ∧ main Example.WEATHER_CODE_MAP Example.fromisoformat
      [Example.failed_fetch_tick; Example.good_tick]
    = ([], [], [SessionClosed; EngineDisposed; PoolShutdown], Exited).
Proof. split; reflexivity. Qed.

(** Two passes that succeed store two records and sleep twice. *)
Example two_good_passes :
  ∃ db, length db = 2%nat
    ∧ main Example.WEATHER_CODE_MAP Example.fromisoformat
        [Example.good_tick; Example.good_tick]
      = (db, [Created; Slept; Created; Slept], [], Alive).
Proof. eexists. split; [|vm_compute; reflexivity]. reflexivity. Qed.

(** A pass at 08:15: the sample of minute 15 and the pressure of hour 8
    ([1013 // 1.333]) make the record. *)
Example good_pass_record :
  iteration Example.WEATHER_CODE_MAP Example.fromisoformat Example.good_tick []
  = Ok [ {| Models.id := 1; Models.temperature := 6; Models.wind_speed := 4;
            Models.wind_direction := EAST; Models.precipitation := 0;
            Models.weather := "Пасмурно"; Models.pressure := 759;
            Models.created_at := Some 1704086100 |} ].
Proof. vm_compute. reflexivity. Qed.

(** C1, amended. An exception raised in a pass of the polling loop is not
    caught in the loop: the coroutine is left by it at once.  The table and
    the events are those of the passes before it, so the failing pass neither
    stores nor sleeps, and no later pass runs.  [main] swallows the exception,
    closes the session, the engine and the pool, and returns. *)
Theorem polling_error_leaves_loop (WEATHER_CODE_MAP : gmap Z string)
    (fromisoformat : string → option datetime)
    (pre : list Tick) (t : Tick) (rest : list Tick)
    (db db1 : Database) (events : list Event) (e : exn) :
  download_create_weather_record_service WEATHER_CODE_MAP fromisoformat pre db
  = (db1, events, Running) →
  iteration WEATHER_CODE_MAP fromisoformat t db1 = Raise e →
  download_create_weather_record_service WEATHER_CODE_MAP fromisoformat
    (pre ++ t :: rest) db
  = (db1, events, Raised e)
  ∧ (db = [] →
     main WEATHER_CODE_MAP fromisoformat (pre ++ t :: rest)
     = (db1, events, [SessionClosed; EngineDisposed; PoolShutdown], Exited)).
Proof.
  intros Hpre Hpass.
  assert (Hrun : download_create_weather_record_service
                   WEATHER_CODE_MAP fromisoformat (pre ++ t :: rest) db
                 = (db1, events, Raised e)).
  { rewrite (run_app _ _ pre (t :: rest) db db1 events Hpre). simpl.
    rewrite Hpass. by rewrite app_nil_r. }
  split; [done|]. intros ->. rewrite main_polling. by rewrite Hrun.
Qed.

Lemma polling_error_leaves_loop_witness :
  download_create_weather_record_service
    Example.WEATHER_CODE_MAP Example.fromisoformat
    ([] ++ Example.failed_fetch_tick :: [Example.good_tick]) []
  = ([], [], Raised ClientError)
  ∧ (([] : Database) = [] →
     main Example.WEATHER_CODE_MAP Example.fromisoformat
       ([] ++ Example.failed_fetch_tick :: [Example.good_tick])
     = ([], [], [SessionClosed; EngineDisposed; PoolShutdown], Exited)).
Proof.
  apply (polling_error_leaves_loop Example.WEATHER_CODE_MAP Example.fromisoformat
           [] Example.failed_fetch_tick [Example.good_tick] [] [] [] ClientError).
  - reflexivity.
  - reflexivity.
Defined.

(** ** The hourly selection without a match *)

(** C2, as the claim states it, fails: at 10:15 no sample of the hourly series
    has the current hour; the selection returns [None] and raises nothing, the
    merge of that pass raises [TypeError], and this ends the polling task and
    [main] although the next pass would succeed. *)
Lemma no_hour_match_ends_polling :
  _get_current_hour_data (Example.clock 10 15)
    {| h_time := [Example.at_ 8 0; Example.at_ 9 0];
       h_pressure := [759; 759]%Q |}
  = None
  ∧ iteration Example.WEATHER_CODE_MAP Example.fromisoformat
      Example.no_hour_tick []
    = Raise TypeError
  ∧ main Example.WEATHER_CODE_MAP Example.fromisoformat
      [Example.no_hour_tick; Example.good_tick]
    = ([], [], [SessionClosed; EngineDisposed; PoolShutdown], Exited).
Proof. repeat split; reflexivity. Qed.

(** C2, amended. Read against a clock whose hour is [h] throughout the scan,
    a series none of whose samples has hour [h] is answered with [None]; the
    selection raises nothing.  A pass of the polling loop in which this
    happens raises an exception other than [NoMatchError] before anything is
    stored, and the polling task is left by it: the failure is not recovered
    within the loop. *)
Theorem hourly_selection_without_match (WEATHER_CODE_MAP : gmap Z string)
    (fromisoformat : string → option datetime)
    (t : Tick) (rest : list Tick) (db : Database)
    (response : Response) (kwargs : HourlyPayload) (data : HourlyData) (h : Z) :
  fetched t = Ok response →
  hourly response = Some kwargs →
  validate_hourly fromisoformat kwargs = Ok data →
  (∀ k, hour (now_hour t k) = h) →
  Forall (λ s : datetime * Q, hour s.1 ≠ h) (zip (h_time data) (h_pressure data)) →
  _get_current_hour_data (now_hour t) data = None
  ∧ ∃ e,
      iteration WEATHER_CODE_MAP fromisoformat t db = Raise e
      ∧ e ≠ NoMatchError
      ∧ download_create_weather_record_service WEATHER_CODE_MAP fromisoformat
          (t :: rest) db
        = (db, [], Raised e).
Proof.
  intros Hfetch Hhourly Hvalid Hnow Hnone.
  assert (Hsel : _get_current_hour_data (now_hour t) data = None)
    by by apply (hour_scan_no_match (now_hour t) h).
  split; [done|].
  assert (Hpass : ∃ e, iteration WEATHER_CODE_MAP fromisoformat t db = Raise e
                       ∧ e ≠ NoMatchError).
  { unfold iteration. rewrite Hfetch. simpl. rewrite Hhourly. simpl.
    rewrite Hvalid. simpl. rewrite Hsel.
    destruct (minutely_15 response) as [mk|]; simpl; [|by exists KeyError].
    destruct (validate_minutely WEATHER_CODE_MAP fromisoformat mk)
      as [mdata|e] eqn:Hm; simpl.
    - destruct (_get_current_minute_data (now_minute t) mdata)
        as [sample|e] eqn:Hs; simpl; [by exists TypeError|].
      exists e. split; [done|].
      by rewrite (get_current_minute_data_Raise _ _ _ Hs).
    - exists e. split; [done|].
      by destruct (validate_minutely_Raise _ _ _ _ Hm) as [-> | ->]. }
  destruct Hpass as (e & Hpass & Hne). exists e.
  split; [done|]. split; [done|]. simpl. by rewrite Hpass.
Qed.

Lemma hourly_selection_without_match_witness :
  _get_current_hour_data (now_hour Example.no_hour_tick)
    {| h_time := [Example.at_ 8 0; Example.at_ 9 0];
       h_pressure := serialize_surface_pressure [1013; 1012]%Q |}
  = None
  ∧ ∃ e,
      iteration Example.WEATHER_CODE_MAP Example.fromisoformat
        Example.no_hour_tick [] = Raise e
      ∧ e ≠ NoMatchError
      ∧ download_create_weather_record_service
          Example.WEATHER_CODE_MAP Example.fromisoformat
          (Example.no_hour_tick :: [Example.good_tick]) []
        = ([], [], Raised e).
Proof.
  apply (hourly_selection_without_match
           Example.WEATHER_CODE_MAP Example.fromisoformat
           Example.no_hour_tick [Example.good_tick] []
           (Example.response [0; 3; 0]) Example.hourly_payload
           {| h_time := [Example.at_ 8 0; Example.at_ 9 0];
              h_pressure := serialize_surface_pressure [1013; 1012]%Q |} 10).
  - reflexivity.
  - reflexivity.
  - reflexivity.
  - intros k. reflexivity.
  - apply (bool_decide_unpack _). vm_compute. exact I.
Defined.

(** ** The export task *)

Lemma traverse_Ok_length {A B} (f : A → pyresult B) l l' :
  traverse f l = Ok l' → length l' = length l.
Proof.
  revert l'. induction l as [|a l IH]; intros l'; simpl.
  - by intros [= <-].
  - destruct (f a); simpl; [|discriminate].
    destruct (traverse f l) as [bs|]; simpl; [|discriminate].
    intros [= <-]. simpl. by rewrite (IH bs).
Qed.

Lemma traverse_validate_out_Ok (records : list Models.WeatherRecord) :
  Forall (λ r, is_Some (Models.created_at r)) records →
  ∃ rows, traverse validate_out records = Ok rows.
Proof.
  induction 1 as [|r records [created Hr] _ [rows IH]]; simpl.
  - by eexists.
  - rewrite IH. unfold validate_out. rewrite Hr. simpl. by eexists.
Qed.

(** Every row that the create service writes has its [created_at]. *)
Lemma create_service_keeps_created_at integer_column commit db server_now
    kwargs db' :
  Forall (λ r, is_Some (Models.created_at r)) db →
  weather_record_create_service integer_column commit db server_now kwargs
  = Ok db' →
  Forall (λ r, is_Some (Models.created_at r)) db'.
Proof.
  intros Hdb. unfold weather_record_create_service, create.
  destruct (validate_create kwargs); simpl; [|discriminate].
  destruct commit; [discriminate|]. intros [= <-].
  apply Forall_app. split; [done|]. by repeat constructor.
Qed.

Lemma traverse_Ok_inv {A B} (f : A → pyresult B) l l' :
  traverse f l = Ok l' →
  length l' = length l
  ∧ ∀ (i : nat) a, l !! i = Some a → ∃ b, f a = Ok b ∧ l' !! i = Some b.
Proof.
  revert l'. induction l as [|a l IH]; intros l'; simpl.
  - intros [= <-]. split; [done|]. intros i a Hi. by rewrite lookup_nil in Hi.
  - destruct (f a) as [b|] eqn:Hb; simpl; [|discriminate].
    destruct (traverse f l) as [bs|]; simpl; [|discriminate].
    intros [= <-]. destruct (IH bs eq_refl) as [Hlen Hall].
    split; [simpl; by rewrite Hlen|].
    intros [|i] a' Hi; simpl in Hi.
    + injection Hi as <-. by exists b.
    + by apply Hall.
Qed.

Lemma traverse_validate_out_rows (records : list Models.WeatherRecord) rows :
  traverse validate_out records = Ok rows →
  length rows = length records
  ∧ ∀ (i : nat) r, records !! i = Some r →
      ∃ created, Models.created_at r = Some created
                 ∧ rows !! i = Some (export_row_of r created).
Proof.
  intros [Hlen Hall]%traverse_Ok_inv. split; [done|].
  intros i r Hi. destruct (Hall i r Hi) as (row & Hrow & Hlk).
  unfold validate_out in Hrow.
  destruct (Models.created_at r) as [created|]; [|discriminate].
  injection Hrow as <-. by exists created.
Qed.

(** The first [n] rows in descending order of key are the [n] rows of
    greatest key. *)
Lemma desc_limit_most_recent (db : Database) (n : nat) :
  NoDup (Models.id <$> db) →
  StronglySorted (λ r1 r2, Models.id r2 < Models.id r1)
    (take n (order_rows Desc db))
  ∧ (∀ r, r ∈ take n (order_rows Desc db) → r ∈ db)
  ∧ (∀ r r', r ∈ db → r ∉ take n (order_rows Desc db) →
       r' ∈ take n (order_rows Desc db) → Models.id r < Models.id r').
Proof.
  intros Hnd.
  assert (Hstrict : StronglySorted (λ r1 r2, Models.id r2 < Models.id r1)
                      (order_rows Desc db)).
  { apply (sorted_strict (flip id_le)); [| |apply order_rows_desc_sorted].
    - unfold flip, id_le. intros r1 r2. lia.
    - by eapply NoDup_ids_Permutation; [apply order_rows_Permutation|]. }
  split; [by apply sorted_take|]. split.
  - intros r Hr. apply (order_rows_elem_of Desc). by eapply subseteq_take.
  - intros r r' Hr Hnot Hr'.
    apply (sorted_take_before_rest
             (λ r1 r2, Models.id r2 < Models.id r1) n (order_rows Desc db));
      [done | done | by apply order_rows_elem_of | done].
Qed.

(** C10. On an affirmative answer, whatever the answer was, the export pass
    asks the store for order ["id desc"] and limit 10 and hands on one
    spreadsheet row per record returned, in the order returned.  The records
    are the ten most recently created: [min 10 (size of the table)] records of
    the table in strictly descending order of key, every record left out
    having a smaller key than every record exported; never more than 10
    rows.  (The table has pairwise different keys and its rows carry their
    [created_at], as every table written by the create service does; the read
    succeeds.) *)
Theorem export_takes_ten_most_recent (db : Database) (input_data : str) :
  affirmative input_data = true →
  Forall (λ r, is_Some (Models.created_at r)) db →
  NoDup (Models.id <$> db) →
  ∃ records rows,
    get_all None db (Some "id desc") (Some 10%nat) = Ok records
    ∧ export_iteration None db input_data = Ok (Some rows)
    ∧ length records = (10 `min` length db)%nat
    ∧ StronglySorted (λ r1 r2, Models.id r2 < Models.id r1) records
    ∧ (∀ r, r ∈ records → r ∈ db)
    ∧ (∀ r r', r ∈ db → r ∉ records → r' ∈ records →
         Models.id r < Models.id r')
    ∧ length rows = length records
    ∧ (∀ (i : nat) r, records !! i = Some r →
         ∃ created, Models.created_at r = Some created
                    ∧ rows !! i = Some (export_row_of r created))
    ∧ (length rows ≤ 10)%nat
    ∧ (∀ input_data', affirmative input_data' = true →
         export_iteration None db input_data'
         = export_iteration None db input_data).
Proof.
  intros Hyes Hdb Hnd.
  set (records := take 10 (order_rows Desc db)).
  assert (Hget : get_all None db (Some "id desc") (Some 10%nat) = Ok records)
    by reflexivity.
  assert (Hrecords : Forall (λ r, is_Some (Models.created_at r)) records).
  { apply Forall_take. by rewrite order_rows_Permutation. }
  destruct (traverse_validate_out_Ok records Hrecords) as [rows Hrows].
  destruct (traverse_validate_out_rows records rows Hrows) as [Hlen Hrow].
  assert (Hlen' : length records = (10 `min` length db)%nat).
  { unfold records.
    by rewrite length_take, (Permutation_length (order_rows_Permutation Desc db)). }
  assert (Hexport : ∀ i, affirmative i = true →
                         export_iteration None db i = Ok (Some rows)).
  { intros i Hi. unfold export_iteration, weather_record_get_all_service.
    rewrite Hi, Hget. simpl. by rewrite Hrows. }
  destruct (desc_limit_most_recent db 10 Hnd) as (Hsorted & Hsub & Hrest).
  exists records, rows.
  split; [done|]. split; [by apply Hexport|]. split; [done|].
  split; [done|]. split; [done|]. split; [done|]. split; [done|].
  split; [done|]. split; [lia|].
  intros i Hi. by rewrite !Hexport.
Qed.

Lemma export_takes_ten_most_recent_witness :
  ∃ records rows,
    get_all None Example.table (Some "id desc") (Some 10%nat) = Ok records
    ∧ export_iteration None Example.table [32; 1044; 1072; 10] = Ok (Some rows)
    ∧ length records = (10 `min` length Example.table)%nat
    ∧ StronglySorted (λ r1 r2, Models.id r2 < Models.id r1) records
    ∧ (∀ r, r ∈ records → r ∈ Example.table)
    ∧ (∀ r r', r ∈ Example.table → r ∉ records → r' ∈ records →
         Models.id r < Models.id r')
    ∧ length rows = length records
    ∧ (∀ (i : nat) r, records !! i = Some r →
         ∃ created, Models.created_at r = Some created
                    ∧ rows !! i = Some (export_row_of r created))
    ∧ (length rows ≤ 10)%nat
    ∧ (∀ input_data', affirmative input_data' = true →
         export_iteration None Example.table input_data'
         = export_iteration None Example.table [32; 1044; 1072; 10]).
Proof.
  apply (export_takes_ten_most_recent Example.table [32; 1044; 1072; 10]).
  - vm_compute. reflexivity.
  - apply (bool_decide_unpack _). vm_compute. exact I.
  - apply (bool_decide_unpack _). vm_compute. exact I.
Defined.

(** Out of twelve stored records the export takes the ten of greatest key,
    newest first. *)
Example export_of_twelve_records :
  export_iteration None Example.twelve [121; 10]
  = Ok (Some ((λ key, export_row_of (Example.row key (Some key)) key)
              <$> [12; 11; 10; 9; 8; 7; 6; 5; 4; 3])).
Proof. vm_compute. reflexivity. Qed.

(** Any other answer ends the pass at [continue]: nothing is read or
    exported, whether or not a read would succeed. *)
Lemma export_skipped_without_affirmative (scalars : option exn) (db : Database)
    (input_data : str) :
  affirmative input_data = false →
  export_iteration scalars db input_data = Ok None.
Proof. intros Hno. unfold export_iteration. by rewrite Hno. Qed.

Example affirmative_answers :
  affirmative [32; 1044; 1072; 10] = true      (* " Да\n" *)
  ∧ affirmative [89; 69; 83; 10] = true        (* "YES\n" *)
  ∧ affirmative [121; 13; 10] = true           (* "y\r\n" *)
  ∧ affirmative [1076; 10] = true              (* "д\n" *)
  ∧ affirmative [10] = false                   (* "\n" *)
  ∧ affirmative [110; 10] = false              (* "n\n" *)
  ∧ affirmative [121; 101; 115; 33; 10] = false.   (* "yes!\n" *)
Proof. repeat split; vm_compute; reflexivity. Qed.

(** * Further properties of the code *)

(** ** Normalization *)

Lemma in_range_true b : in_range b = true ↔ (0 <= b)%Q ∧ (b <= 360)%Q.
Proof. unfold in_range. by rewrite andb_true_iff, !Qleb_le. Qed.

Lemma wind_direction_label_in_range b :
  in_range b = true → is_Some (wind_direction_label b).
Proof.
  intros [H0 H360]%in_range_true.
  destruct (Qlt_le_dec 45 b) as [H45|H45];
    [destruct (Qlt_le_dec 135 b) as [H135|H135];
      [destruct (Qlt_le_dec 225 b) as [H225|H225];
        [destruct (Qlt_le_dec 315 b) as [H315|H315]|]|]|].
  - rewrite wind_direction_label_north; [done|done|done|by right].
  - by rewrite wind_direction_label_west.
  - by rewrite wind_direction_label_south.
  - by rewrite wind_direction_label_east.
  - rewrite wind_direction_label_north; [done|done|done|by left].
Qed.

Lemma wind_direction_label_out_of_range b :
  in_range b = false → wind_direction_label b = None.
Proof.
  intros Hout. unfold wind_direction_label.
  assert (Hb : (b < 0 ∨ 360 < b)%Q).
  { unfold in_range in Hout. apply andb_false_iff in Hout as [H|H];
      apply Qleb_false in H; auto. }
  decide_Qcmp; simpl; try reflexivity; exfalso; destruct Hb; lra.
Qed.

Lemma serialize_wind_direction_length (directions : list Q) :
  length (serialize_wind_direction directions)
  = length (List.filter in_range directions)
  ∧ (length (serialize_wind_direction directions) ≤ length directions)%nat
  ∧ (length (serialize_wind_direction directions) = length directions
     ↔ Forall (λ b, in_range b = true) directions).
Proof.
  induction directions as [|b rest (IHlen & IHle & IHeq)]; simpl.
  { split; [done|]. split; [done|]. split; [by constructor | done]. }
  destruct (in_range b) eqn:Hb.
  - destruct (wind_direction_label_in_range b Hb) as [label ->]. simpl.
    split; [by rewrite IHlen|]. split; [lia|]. split.
    + intros Hlen. constructor; [done|]. apply IHeq. lia.
    + intros Hall. apply Forall_inv_tail in Hall. f_equal. by apply IHeq.
  - rewrite (wind_direction_label_out_of_range b Hb).
    split; [done|]. split; [lia|]. split; [lia|].
    intros Hall. apply Forall_inv in Hall. congruence.
Qed.

(** X1. [serialize_wind_direction] drops every bearing outside [[0,360]]
    without a trace: it returns one label per bearing inside the range, so
    the column is never longer than its input and is as long exactly when all
    bearings are inside the range. *)
Theorem wind_direction_drops_out_of_range (directions : list Q) :
  length (serialize_wind_direction directions)
  = length (List.filter in_range directions)
  ∧ (length (serialize_wind_direction directions) ≤ length directions)%nat
  ∧ (length (serialize_wind_direction directions) = length directions
     ↔ Forall (λ b, in_range b = true) directions).
Proof. apply serialize_wind_direction_length. Qed.

Lemma floordiv_mono x y :
  (0 <= x)%Q → (x <= y)%Q → (y <= 562949953421312)%Q →
  (floordiv x float_1_333 <= floordiv y float_1_333)%Q.
Proof.
  intros Hx Hxy Hy. rewrite !floordiv_exact by lra.
  rewrite <- Zle_Qle. apply Qfloor_resp_le. unfold Qdiv.
  apply Qmult_le_compat_r; [done|]. discriminate.
Qed.

(** X2. [serialize_surface_pressure] keeps the length and the order of the
    column, and on pressures between 0 and 2^49 the conversion is monotone:
    of two such pressures of one column the lower one never gets the higher
    result. *)
Theorem pressure_conversion_monotone (pressures : list Q) (i j : nat) (x y : Q) :
  pressures !! i = Some x → pressures !! j = Some y →
  (0 <= x)%Q → (x <= y)%Q → (y <= 562949953421312)%Q →
  length (serialize_surface_pressure pressures) = length pressures
  ∧ ∃ x' y',
      serialize_surface_pressure pressures !! i = Some x'
      ∧ serialize_surface_pressure pressures !! j = Some y'
      ∧ (x' <= y')%Q.
Proof.
  intros Hi Hj Hx Hxy Hy. unfold serialize_surface_pressure.
  split; [apply length_map|].
  exists (floordiv x float_1_333), (floordiv y float_1_333).
  change (map ?f pressures) with (f <$> pressures).
  rewrite !list_lookup_fmap, Hi, Hj. simpl.
  split; [done|]. split; [done|]. by apply floordiv_mono.
Qed.

Lemma pressure_conversion_monotone_witness :
  length (serialize_surface_pressure [1013; 990]%Q) = length [1013; 990]%Q
  ∧ ∃ x' y',
      serialize_surface_pressure [1013; 990]%Q !! 1%nat = Some x'
      ∧ serialize_surface_pressure [1013; 990]%Q !! 0%nat = Some y'
      ∧ (x' <= y')%Q.
Proof.
  apply (pressure_conversion_monotone [1013; 990]%Q 1 0 990 1013).
  - reflexivity.
  - reflexivity.
  - vm_compute. discriminate.
  - vm_compute. discriminate.
  - vm_compute. discriminate.
Defined.

(** ** Selection *)

Lemma hour_scan_characterised now k0 pairs :
  match hour_scan now k0 pairs with
  | Some s =>
      ∃ (k : nat) t,
        pairs !! k = Some (t, s_pressure s)
        ∧ hour t = hour (now (k0 + k)%nat)
        ∧ ∀ (j : nat) t' p', (j < k)%nat → pairs !! j = Some (t', p') →
            hour t' ≠ hour (now (k0 + j)%nat)
  | None =>
      ∀ (k : nat) t p, pairs !! k = Some (t, p) → hour t ≠ hour (now (k0 + k)%nat)
  end.
Proof.
  revert k0. induction pairs as [|[time pressure] rest IH]; intros k0; simpl.
  { intros k t p Hk. by rewrite lookup_nil in Hk. }
  destruct (Z.eqb_spec (hour time) (hour (now k0))) as [Heq|Hne].
  - exists 0%nat, time. simpl. rewrite Nat.add_0_r.
    split; [done|]. split; [done|]. intros j t' p' Hj. lia.
  - specialize (IH (S k0)). destruct (hour_scan now (S k0) rest) as [s|].
    + destruct IH as (k & t & Hk & Hhour & Hfirst).
      exists (S k), t. simpl. rewrite Nat.add_succ_r.
      split; [done|]. split; [done|].
      intros [|j] t' p' Hlt Hj; simpl in Hj.
      * injection Hj as <- <-. by rewrite Nat.add_0_r.
      * rewrite Nat.add_succ_r. apply (Hfirst j t' p'); [lia | done].
    + intros [|k] t p Hk; simpl in Hk.
      * injection Hk as <- <-. by rewrite Nat.add_0_r.
      * rewrite Nat.add_succ_r. by apply (IH k t p).
Qed.

(** X3. Whatever the clock does during the scan, [_get_current_hour_data]
    returns the pressure of the first pair of the zipped columns whose hour
    equals the hour read in its own pass of the loop, and [None] exactly when
    no pass finds its pair's hour equal to the hour it reads.  Timestamps
    beyond the shorter of the two columns are never looked at. *)
Theorem hourly_selection_characterised (now : nat → datetime) (data : HourlyData) :
  match _get_current_hour_data now data with
  | Some s =>
      ∃ (k : nat) t,
        h_time data !! k = Some t
        ∧ h_pressure data !! k = Some (s_pressure s)
        ∧ hour t = hour (now k)
        ∧ ∀ (j : nat) t', (j < k)%nat → h_time data !! j = Some t' →
            hour t' ≠ hour (now j)
  | None =>
      ∀ (k : nat) t p, h_time data !! k = Some t → h_pressure data !! k = Some p →
        hour t ≠ hour (now k)
  end.
Proof.
  unfold _get_current_hour_data.
  pose proof (hour_scan_characterised now 0
                (zip (h_time data) (h_pressure data))) as H.
  destruct (hour_scan now 0 (zip (h_time data) (h_pressure data))) as [s|].
  - destruct H as (k & t & Hk & Hhour & Hfirst).
    apply lookup_zip_with_Some in Hk as (t0 & p0 & [= <- <-] & Ht & Hp).
    exists k, t. split; [done|]. split; [done|]. split; [done|].
    intros j t' Hlt Hj.
    assert (Hjp : is_Some (h_pressure data !! j)).
    { apply lookup_lt_is_Some. apply lookup_lt_Some in Hp. lia. }
    destruct Hjp as [p' Hjp].
    apply (Hfirst j t' p'); [done|].
    apply lookup_zip_with_Some. by exists t', p'.
  - intros k t p Ht Hp. apply (H k t p).
    apply lookup_zip_with_Some. by exists t, p.
Qed.

Lemma minute_scan_index now times index best :
  (minute_scan now index times best).1 = best.1
  ∨ (index ≤ (minute_scan now index times best).1
     < index + length times)%nat.
Proof.
  revert index best. induction times as [|time rest IH]; intros index best; simpl.
  { by left. }
  destruct (IH (S index)
              (if lt_inf (Z.abs (minute time - minute (now index))) best.2
               then (index, Some (Z.abs (minute time - minute (now index))))
               else best)) as [Hkeep|Hin].
  - rewrite Hkeep.
    destruct (lt_inf _ best.2); simpl; [right; lia | by left].
  - right. lia.
Qed.

Lemma minute_scan_first_pass now time rest :
  ((minute_scan now 0 (time :: rest) (0%nat, None)).1
   < length (time :: rest))%nat.
Proof.
  simpl.
  destruct (minute_scan_index now rest 1
              (0%nat, Some (Z.abs (minute time - minute (now 0%nat)))))
    as [-> | Hin]; simpl; lia.
Qed.

(** X4. [_get_current_minute_data] raises nothing but [IndexError].  The
    index it settles on lies inside the time column unless that column is
    empty; the result is the sample at that index when every column reaches
    it, and [IndexError] when some column is too short, as the wind column is
    after a bearing was dropped.  On an empty series it always raises. *)
Theorem subhourly_selection_index_error (now : nat → datetime) (data : MinutelyData) :
  (m_time data = [] → _get_current_minute_data now data = Raise IndexError)
  ∧ ∃ i : nat,
      (m_time data = [] ∨ (i < length (m_time data))%nat)
      ∧ ((∃ s, _get_current_minute_data now data = Ok s ∧ sample_at data i s)
         ∨ (_get_current_minute_data now data = Raise IndexError
            ∧ (length (m_time data) ≤ i
               ∨ length (m_temperature data) ≤ i
               ∨ length (m_precipitation data) ≤ i
               ∨ length (m_wind_speed data) ≤ i
               ∨ length (m_wind_direction data) ≤ i
               ∨ length (m_weather data) ≤ i)%nat)).
Proof.
  split.
  { intros Hempty. unfold _get_current_minute_data. by rewrite Hempty. }
  exists (minute_scan now 0 (m_time data) (0%nat, None)).1. split.
  { destruct (m_time data) as [|time rest]; [by left|].
    right. apply minute_scan_first_pass. }
  unfold _get_current_minute_data, sample_at.
  generalize (minute_scan now 0 (m_time data) (0%nat, None)).1. intros i.
  destruct (m_time data !! i) as [t|] eqn:Ht; simpl;
    [|right; split; [done|]; apply lookup_ge_None in Ht; tauto].
  destruct (m_temperature data !! i) as [temp|] eqn:Htemp; simpl;
    [|right; split; [done|]; apply lookup_ge_None in Htemp; tauto].
  destruct (m_precipitation data !! i) as [prec|] eqn:Hprec; simpl;
    [|right; split; [done|]; apply lookup_ge_None in Hprec; tauto].
  destruct (m_wind_speed data !! i) as [speed|] eqn:Hspeed; simpl;
    [|right; split; [done|]; apply lookup_ge_None in Hspeed; tauto].
  destruct (m_wind_direction data !! i) as [dir|] eqn:Hdir; simpl;
    [|right; split; [done|]; apply lookup_ge_None in Hdir; tauto].
  destruct (m_weather data !! i) as [w|] eqn:Hw; simpl;
    [|right; split; [done|]; apply lookup_ge_None in Hw; tauto].
  left. eexists. split; [reflexivity|]. by repeat split.
Qed.

(** The wind column lost its second entry to a bearing outside the range:
    the sample nearest to minute 30 is the third, and the wind column does
    not reach it. *)
Example subhourly_selection_short_wind_column :
  _get_current_minute_data (Example.clock 8 30)
    {| m_time := [Example.at_ 8 0; Example.at_ 8 15; Example.at_ 8 30];
       m_temperature := [5; 6; 7]%Q;
       m_precipitation := [0; 0; 1];
       m_wind_speed := [3; 4; 5]%Q;
       m_wind_direction := serialize_wind_direction [10; 361; 200]%Q;
       m_weather := [Some "Ясно"; Some "Ясно"; Some "Ясно"] |}
  = Raise IndexError.
Proof. reflexivity. Qed.

(** ** Validation *)

Lemma traverse_Raise_inv {A B} (f : A → pyresult B) l e :
  traverse f l = Raise e → ∃ a, a ∈ l ∧ f a = Raise e.
Proof.
  induction l as [|a l IH]; simpl; [discriminate|].
  destruct (f a) as [b|e'] eqn:Hb; simpl.
  - destruct (traverse f l) as [bs|e'']; simpl; [discriminate|].
    intros [= <-]. destruct (IH eq_refl) as (a' & Ha' & Hf).
    exists a'. split; [by right | done].
  - intros [= <-]. exists a. split; [by left | done].
Qed.

(** X5. When [validate_minutely] succeeds on a payload whose columns have
    one length, every column of the result has that length except the wind
    column, which has one entry per bearing within [[0,360]]: the result is
    aligned exactly when all bearings are within the range. *)
Theorem validate_minutely_alignment (WEATHER_CODE_MAP : gmap Z string)
    (fromisoformat : string → option datetime) (kwargs : MinutelyPayload)
    (n : nat) (bearings : list Q) (codes : list Z) (data : MinutelyData) :
  payload_columns kwargs n bearings codes →
  validate_minutely WEATHER_CODE_MAP fromisoformat kwargs = Ok data →
  length (m_time data) = n
  ∧ m_wind_direction data = serialize_wind_direction bearings
  ∧ m_weather data = serialize_weather_code WEATHER_CODE_MAP codes
  ∧ (aligned data ↔ Forall (λ b, in_range b = true) bearings).
Proof.
  intros ((time & Htime & Hlt) & (temp & Htemp & Hltemp) & (prec & Hprec & Hlprec)
          & (speed & Hspeed & Hlspeed) & Hdir & Hldir & Hcode & Hlcode).
  unfold validate_minutely.
  rewrite Htime, Htemp, Hprec, Hspeed, Hdir, Hcode. simpl.
  destruct (serialize_time fromisoformat time) as [time'|] eqn:Hser; simpl;
    [|discriminate].
  intros [= <-]. simpl.
  apply traverse_Ok_length in Hser.
  split; [congruence|]. split; [done|]. split; [done|].
  destruct (serialize_wind_direction_length bearings) as (_ & _ & Heq).
  unfold aligned. simpl. unfold serialize_weather_code. rewrite length_map.
  rewrite <- Heq. split.
  - intros (_ & _ & _ & Hd & _). congruence.
  - intros Hd. repeat split; congruence.
Qed.

Lemma validate_minutely_alignment_witness :
  length (m_time Example.minutely_normalized) = 3%nat
  ∧ m_wind_direction Example.minutely_normalized
    = serialize_wind_direction [10; 100; 200]%Q
  ∧ m_weather Example.minutely_normalized
    = serialize_weather_code Example.WEATHER_CODE_MAP [0; 3; 0]
  ∧ (aligned Example.minutely_normalized
     ↔ Forall (λ b, in_range b = true) [10; 100; 200]%Q).
Proof.
  apply (validate_minutely_alignment Example.WEATHER_CODE_MAP Example.fromisoformat
           (Example.minutely_payload [0; 3; 0]) 3 [10; 100; 200]%Q [0; 3; 0]
           Example.minutely_normalized).
  - unfold payload_columns. simpl. repeat split; eauto.
  - vm_compute. reflexivity.
Defined.

(** ** The store and the polling loop *)

Lemma foldr_max_snoc (l : list Z) (x : Z) :
  foldr Z.max 0 (l ++ [x]) = Z.max (foldr Z.max 0 l) (Z.max x 0).
Proof. induction l as [|y l IH]; simpl; [lia | rewrite IH; lia]. Qed.

Lemma next_id_positive db : 1 ≤ next_id db.
Proof.
  unfold next_id. assert (0 ≤ foldr Z.max 0 (map Models.id db)); [|lia].
  induction db as [|r db IH]; simpl; lia.
Qed.

Lemma next_id_snoc db r :
  Models.id r = next_id db → next_id (db ++ [r]) = next_id db + 1.
Proof.
  intros Hr. pose proof (next_id_positive db) as Hpos.
  unfold next_id in *. rewrite map_app. simpl.
  rewrite foldr_max_snoc. lia.
Qed.

Lemma NoDup_ids_snoc db (r : Models.WeatherRecord) :
  (∀ r', r' ∈ db → Models.id r' < Models.id r) →
  NoDup (Models.id <$> db) → NoDup (Models.id <$> db ++ [r]).
Proof.
  intros Habove Hnd. rewrite fmap_app. apply NoDup_app.
  split; [done|]. split; [|apply NoDup_singleton].
  intros key Hkey Hr. apply list_elem_of_singleton in Hr as ->.
  apply list_elem_of_fmap in Hkey as (r' & Heq & Hr').
  specialize (Habove r' Hr'). lia.
Qed.

Lemma create_Ok_inv integer_column commit db server_now kwargs db' :
  create integer_column commit db server_now kwargs = Ok db' →
  commit = None
  ∧ ∃ r, db' = db ++ [r]
      ∧ Models.id r = next_id db
      ∧ Models.created_at r = Some server_now
      ∧ Models.temperature r = integer_column (Schema.temperature kwargs)
      ∧ Models.wind_speed r = Schema.wind_speed kwargs
      ∧ Models.wind_direction r = Schema.wind_direction kwargs
      ∧ Models.precipitation r = integer_column (Schema.precipitation kwargs)
      ∧ Models.pressure r = Schema.pressure kwargs
      ∧ Models.weather r = Schema.weather kwargs.
Proof.
  unfold create. destruct commit; [discriminate|]. intros [= <-].
  split; [done|]. eexists. split; [reflexivity|]. by repeat split.
Qed.

(** X6. [DatabaseRepository.create] either fails with the exception of the
    commit and writes nothing, or appends exactly one row to the table: the
    rows already there are untouched, the new row gets a key above every key
    of the table and the server's clock reading as [created_at], and keys
    that were pairwise different stay so. *)
Theorem create_appends_fresh_row (integer_column : Q → Q)
    (commit : option exn) (db : Database)
    (server_now : Z) (kwargs : WeatherRecordCreateSchema) :
  match create integer_column commit db server_now kwargs with
  | Raise e => commit = Some e
  | Ok db' =>
      commit = None
      ∧ ∃ r, db' = db ++ [r]
          ∧ (∀ r', r' ∈ db → Models.id r' < Models.id r)
          ∧ Models.created_at r = Some server_now
          ∧ (NoDup (Models.id <$> db) → NoDup (Models.id <$> db'))
  end.
Proof.
  destruct (create integer_column commit db server_now kwargs)
    as [db'|e] eqn:Hc.
  - apply create_Ok_inv in Hc as (Hcommit & r & -> & Hid & Hcreated & _).
    split; [done|]. exists r. split; [done|].
    assert (Habove : ∀ r', r' ∈ db → Models.id r' < Models.id r).
    { intros r' Hr'. rewrite Hid. by apply next_id_above. }
    split; [done|]. split; [done|]. by apply NoDup_ids_snoc.
  - unfold create in Hc. destruct commit; [|discriminate]. congruence.
Qed.

Lemma iteration_Ok_inv WEATHER_CODE_MAP fromisoformat t db db' :
  iteration WEATHER_CODE_MAP fromisoformat t db = Ok db' →
  (∃ response, fetched t = Ok response)
  ∧ commit t = None
  ∧ ∃ r, db' = db ++ [r]
      ∧ Models.id r = next_id db
      ∧ Models.created_at r = Some (server_now t).
Proof.
  unfold iteration, weather_record_create_service.
  destruct (fetched t) as [response|]; simpl; [|discriminate].
  destruct (or_raise KeyError (hourly response)); simpl; [|discriminate].
  destruct (validate_hourly _ _); simpl; [|discriminate].
  destruct (or_raise KeyError (minutely_15 response)); simpl; [|discriminate].
  destruct (validate_minutely _ _ _); simpl; [|discriminate].
  destruct (_get_current_minute_data _ _); simpl; [|discriminate].
  destruct (merge _ _); simpl; [|discriminate].
  destruct (validate_create _); simpl; [|discriminate].
  intros (Hcommit & r & -> & Hid & Hcreated & _)%create_Ok_inv.
  split; [by eexists|]. split; [done|]. by exists r.
Qed.

Lemma keys_from_length {A} first (l : list A) :
  length (keys_from first l) = length l.
Proof. revert first. induction l; intros first; simpl; by f_equal. Qed.

Lemma keys_from_above {A} first (l : list A) key :
  key ∈ keys_from first l → first ≤ key.
Proof.
  revert first. induction l as [|a l IH]; intros first; simpl.
  - by intros ?%elem_of_nil.
  - intros [->|Hin]%elem_of_cons; [lia|]. specialize (IH _ Hin). lia.
Qed.

Lemma keys_from_NoDup {A} first (l : list A) : NoDup (keys_from first l).
Proof.
  revert first. induction l as [|a l IH]; intros first; simpl; constructor.
  - intros Hin%keys_from_above. lia.
  - apply IH.
Qed.

Section LoopInvariant.
Variable WEATHER_CODE_MAP : gmap Z string.
Variable fromisoformat : string → option datetime.

End LoopInvariant.


Section TasksInvariant.
Variable WEATHER_CODE_MAP : gmap Z string.
Variable fromisoformat : string → option datetime.

(** Only the polling passes write, one row per completed pass. *)
Lemma run_tasks_invariant steps db :
  ∃ added exports outcome,
    run_tasks WEATHER_CODE_MAP fromisoformat steps db
    = (db ++ added, events_of added, exports, outcome)
    ∧ (length added ≤ polls steps)%nat
    ∧ (length exports ≤ asks steps)%nat
    ∧ (outcome = Running → length added = polls steps)
    ∧ Models.id <$> added = keys_from (next_id db) added
    ∧ Forall (λ r, is_Some (Models.created_at r)) added.
Proof.
  revert db. induction steps as [|[t|p] steps IH]; intros db.
  - exists [], [], Running. simpl. rewrite app_nil_r. by repeat split.
  - simpl.
    destruct (iteration WEATHER_CODE_MAP fromisoformat t db) as [db'|e] eqn:Hpass.
    + apply iteration_Ok_inv in Hpass as (_ & _ & r & -> & Hid & Hcreated).
      destruct (IH (db ++ [r]))
        as (added & exports & outcome & -> & Hle & Hle' & Hall' & Hkeys & Hall).
      exists (r :: added), exports, outcome. rewrite <- app_assoc.
      split; [done|]. split; [unfold polls in *; simpl; lia|].
      split; [done|].
      split; [intros Hrunning; specialize (Hall' Hrunning);
              unfold polls in *; simpl; lia|].
      split; [|by constructor].
      rewrite fmap_cons, Hkeys, (next_id_snoc db r Hid), Hid. reflexivity.
    + exists [], [], (Raised e). rewrite app_nil_r. simpl.
      split; [done|]. split; [lia|]. split; [lia|]. by split.
  - simpl. destruct (IH db)
      as (added & exports & outcome & Hrun & Hle & Hle' & Hall' & Hkeys & Hall).
    unfold polls, asks in *. simpl.
    destruct (export_pass p db) as [[rows|]|e].
    + rewrite Hrun. exists added, (rows :: exports), outcome. simpl.
      split; [done|]. split; [done|]. split; [lia|]. by split.
    + rewrite Hrun. exists added, exports, outcome.
      split; [done|]. split; [done|]. split; [lia|]. by split.
    + exists [], [], (Raised e). rewrite app_nil_r. simpl.
      split; [done|]. split; [lia|]. split; [lia|]. by split.
Qed.
End TasksInvariant.

(** X8. [main] starts from the empty table and only the polling task
    writes.  Whatever the two tasks of the group do, and in whatever order
    their passes complete, the table holds one row per completed polling
    pass (never more rows than polling passes, and exactly as many while the
    process is alive), with the keys 1, 2, ... in the order of writing
    (pairwise different) and every [created_at] set; no more exports were
    handed on than the export task made passes; and when the group was left
    by an exception of either task, the session, the engine and the pool have
    been closed. *)
Theorem main_keys_count_from_one (WEATHER_CODE_MAP : gmap Z string)
    (fromisoformat : string → option datetime) (steps : list Step) :
  ∃ db exports cleanup process,
    main_with_operator WEATHER_CODE_MAP fromisoformat steps
    = (db, events_of db, exports, cleanup, process)
    ∧ Models.id <$> db = keys_from 1 db
    ∧ NoDup (Models.id <$> db)
    ∧ Forall (λ r, is_Some (Models.created_at r)) db
    ∧ (length db ≤ polls steps)%nat
    ∧ (length exports ≤ asks steps)%nat
    ∧ (process = Alive → length db = polls steps)
    ∧ (process = Alive → cleanup = [])
    ∧ (process = Exited →
       cleanup = [SessionClosed; EngineDisposed; PoolShutdown]).
Proof.
  unfold main_with_operator.
  destruct (run_tasks_invariant WEATHER_CODE_MAP fromisoformat steps [])
    as (added & exports & outcome & -> & Hle & Hle' & Hall' & Hkeys & Hall).
  simpl in *. change (next_id []) with 1 in Hkeys.
  assert (Hnd : NoDup (Models.id <$> added))
    by (rewrite Hkeys; apply keys_from_NoDup).
  destruct outcome as [|e].
  - exists added, exports, [], Alive. specialize (Hall' eq_refl).
    by repeat split.
  - exists added, exports, [SessionClosed; EngineDisposed; PoolShutdown], Exited.
    by repeat split.
Qed.

(** A polling pass, an export, a second polling pass, then a read that
    fails: two records are stored, one export was handed on, and the process
    has exited although every polling pass completed. *)
Example main_export_failure_ends_process :
  ∃ db exports,
    main_with_operator Example.WEATHER_CODE_MAP Example.fromisoformat
      [Poll Example.good_tick;
       Ask {| ainput := Ok [121; 10]; scalars := None |};
       Poll Example.good_tick;
       Ask {| ainput := Ok [121; 10]; scalars := Some SQLAlchemyError |};
       Poll Example.good_tick]
    = (db, [Created; Slept; Created; Slept], exports,
       [SessionClosed; EngineDisposed; PoolShutdown], Exited)
    ∧ Models.id <$> db = [1; 2]
    ∧ length <$> exports = [1%nat].
Proof. eexists _, _. split; [vm_compute; reflexivity|]. by split. Qed.

(** ** Reading the store *)

Lemma NoDup_ids_inj (rows : list Models.WeatherRecord) r1 r2 :
  NoDup (Models.id <$> rows) → r1 ∈ rows → r2 ∈ rows →
  Models.id r1 = Models.id r2 → r1 = r2.
Proof.
  induction rows as [|r rows IH]; intros Hnd H1 H2 Heq.
  { by apply elem_of_nil in H1. }
  rewrite fmap_cons in Hnd. apply NoDup_cons in Hnd as [Hnotin Hnd].
  apply elem_of_cons in H1 as [->|H1]; apply elem_of_cons in H2 as [->|H2].
  - done.
  - exfalso. apply Hnotin. rewrite Heq. by apply list_elem_of_fmap_2.
  - exfalso. apply Hnotin. rewrite <- Heq. by apply list_elem_of_fmap_2.
  - by apply IH.
Qed.

(** X9. On a table with pairwise different keys, the rows in order
    ["id desc"] are the rows in the default order read backwards. *)
Theorem get_all_desc_reverses_default (db : Database) :
  NoDup (Models.id <$> db) →
  ∃ rows,
    get_all None db None None = Ok rows
    ∧ get_all None db (Some "id desc") None = Ok (reverse rows).
Proof.
  intros Hnd. exists (order_rows Asc db). split; [reflexivity|].
  unfold get_all. simpl. f_equal.
  change (merge_sort (flip id_le) db) with (order_rows Desc db).
  apply (StronglySorted_unique_strong (flip id_le)).
  - intros r1 r2 H1 H2 H12 H21.
    apply (proj1 (order_rows_elem_of Desc db r1)) in H1.
    rewrite reverse_Permutation in H2.
    apply (proj1 (order_rows_elem_of Asc db r2)) in H2.
    unfold flip, id_le in H12, H21.
    apply (NoDup_ids_inj db); [done | done | done | lia].
  - apply order_rows_desc_sorted.
  - apply Sorted_StronglySorted; [apply _|].
    apply Sorted_reverse, StronglySorted_Sorted, (order_rows_asc_sorted db).
  - rewrite reverse_Permutation, (order_rows_Permutation Desc).
    symmetry. apply (order_rows_Permutation Asc).
Qed.

Lemma get_all_desc_reverses_default_witness :
  ∃ rows,
    get_all None Example.table None None = Ok rows
    ∧ get_all None Example.table (Some "id desc") None = Ok (reverse rows).
Proof.
  apply (get_all_desc_reverses_default Example.table).
  apply (bool_decide_unpack _). vm_compute. exact I.
Defined.

Lemma traverse_validate_out_Raise (records : list Models.WeatherRecord) :
  Exists (λ r, Models.created_at r = None) records →
  traverse validate_out records = Raise ValidationError.
Proof.
  induction records as [|r records IH]; intros Hex.
  { by apply Exists_nil in Hex. }
  simpl. destruct (validate_out r) as [row|e] eqn:Hv; simpl.
  - apply Exists_cons in Hex as [Hhd|Htl].
    + unfold validate_out in Hv. rewrite Hhd in Hv. discriminate.
    + by rewrite (IH Htl).
  - unfold validate_out in Hv.
    destruct (Models.created_at r); simpl in Hv; congruence.
Qed.

(** X10. [GetAllRecordService] hands on what the repository returns, row by
    row and in the same order: each spreadsheet row carries the six weather
    fields of its record unchanged and the record's [created_at] moved on by
    three hours; the key is not exported.  When a returned record has no
    [created_at] the service raises [ValidationError] and returns nothing. *)
Theorem get_all_service_rows (scalars : option exn) (db : Database)
    (order_by : option string) (limit : option nat)
    (records : list Models.WeatherRecord) :
  get_all scalars db order_by limit = Ok records →
  (Forall (λ r, is_Some (Models.created_at r)) records →
   ∃ rows,
     weather_record_get_all_service scalars db order_by limit = Ok rows
     ∧ length rows = length records
     ∧ ∀ (i : nat) r, records !! i = Some r →
         ∃ created, Models.created_at r = Some created
                    ∧ rows !! i = Some (export_row_of r created))
  ∧ (Exists (λ r, Models.created_at r = None) records →
     weather_record_get_all_service scalars db order_by limit = Raise ValidationError).
Proof.
  intros Hget. unfold weather_record_get_all_service. rewrite Hget. simpl.
  split.
  - intros Hall. destruct (traverse_validate_out_Ok records Hall) as [rows Hrows].
    exists rows. split; [done|]. by apply traverse_validate_out_rows.
  - apply traverse_validate_out_Raise.
Qed.

Lemma get_all_service_rows_witness :
  (Forall (λ r, is_Some (Models.created_at r))
     [Example.row 3 (Some 30); Example.row 2 (Some 20)] →
   ∃ rows,
     weather_record_get_all_service None Example.table (Some "id desc") (Some 2%nat)
     = Ok rows
     ∧ length rows = length [Example.row 3 (Some 30); Example.row 2 (Some 20)]
     ∧ ∀ (i : nat) r,
         [Example.row 3 (Some 30); Example.row 2 (Some 20)] !! i = Some r →
         ∃ created, Models.created_at r = Some created
                    ∧ rows !! i = Some (export_row_of r created))
  ∧ (Exists (λ r, Models.created_at r = None)
       [Example.row 3 (Some 30); Example.row 2 (Some 20)] →
     weather_record_get_all_service None Example.table (Some "id desc") (Some 2%nat)
     = Raise ValidationError).
Proof.
  apply (get_all_service_rows None Example.table (Some "id desc") (Some 2%nat)
           [Example.row 3 (Some 30); Example.row 2 (Some 20)]).
  reflexivity.
Defined.

(** A row without [created_at] makes the whole export fail. *)
Example get_all_service_null_created_at :
  weather_record_get_all_service None
    [Example.row 1 (Some 10); Example.row 2 None] None None
  = Raise ValidationError.
Proof. reflexivity. Qed.

Lemma order_rows_desc_cons db (r : Models.WeatherRecord) :
  (∀ r', r' ∈ db → Models.id r' < Models.id r) →
  ∃ older, order_rows Desc (db ++ [r]) = r :: older ∧ older ≡ₚ db.
Proof.
  intros Habove. pose proof (order_rows_desc_head db r Habove) as Hhead.
  pose proof (order_rows_Permutation Desc (db ++ [r])) as Hp.
  destruct (order_rows Desc (db ++ [r])) as [|top older]; [discriminate|].
  simpl in Hhead. rewrite take_0 in Hhead. injection Hhead as ->.
  exists older. split; [done|].
  apply (Permutation_cons_inv (a := r)). rewrite Hp.
  by rewrite Permutation_app_comm.
Qed.

(** X11. A record written by the create service is the first row of the next
    export: on a table whose rows have their [created_at], after a create
    that succeeds, an affirmative answer (the read succeeding) exports first
    the merged input, with temperature and precipitation as the backend's
    integer columns hold them and the store's clock reading moved on by three
    hours, followed by the rows of at most nine older records. *)
Theorem export_after_create (integer_column : Q → Q) (db db' : Database)
    (server_now : Z) (kwargs : CreateData) (input_data : str) :
  Forall (λ r, is_Some (Models.created_at r)) db →
  weather_record_create_service integer_column None db server_now kwargs
  = Ok db' →
  affirmative input_data = true →
  ∃ label older,
    c_weather kwargs = Some label
    ∧ export_iteration None db' input_data
      = Ok (Some ({| x_temperature := integer_column (c_temperature kwargs);
                     x_wind_speed := c_wind_speed kwargs;
                     x_wind_direction := c_wind_direction kwargs;
                     x_precipitation :=
                       integer_column (inject_Z (c_precipitation kwargs));
                     x_pressure := c_pressure kwargs;
                     x_weather := label;
                     x_created_at := server_now + 10800 |} :: older))
    ∧ length older = (9 `min` length db)%nat.
Proof.
  intros Hdb Hcreate Hyes.
  unfold weather_record_create_service, validate_create in Hcreate.
  destruct (c_weather kwargs) as [label|]; simpl in Hcreate; [|discriminate].
  injection Hcreate as <-.
  set (r := {| Models.id := next_id db;
               Models.temperature := integer_column (c_temperature kwargs);
               Models.wind_speed := c_wind_speed kwargs;
               Models.wind_direction := c_wind_direction kwargs;
               Models.precipitation :=
                 integer_column (inject_Z (c_precipitation kwargs));
               Models.weather := label;
               Models.pressure := c_pressure kwargs;
               Models.created_at := Some server_now |}).
  destruct (order_rows_desc_cons db r) as (rest & Horder & Hperm).
  { intros r' Hr'. simpl. by apply next_id_above. }
  assert (Hrest : Forall (λ r, is_Some (Models.created_at r)) (take 9 rest)).
  { apply Forall_take. by rewrite Hperm. }
  destruct (traverse_validate_out_Ok _ Hrest) as [older Holder].
  exists label, older. split; [done|]. split.
  - unfold export_iteration, weather_record_get_all_service, get_all.
    rewrite Hyes. simpl.
    change (merge_sort (flip id_le)) with (order_rows Desc).
    rewrite Horder. simpl. by rewrite Holder.
  - rewrite (traverse_Ok_length _ _ _ Holder), length_take.
    by rewrite (Permutation_length Hperm).
Qed.

Lemma export_after_create_witness :
  ∃ label older,
    c_weather {| c_time := Example.at_ 8 15; c_temperature := 11 # 2;
                 c_precipitation := 0; c_wind_speed := 4;
                 c_wind_direction := EAST; c_weather := Some "Пасмурно";
                 c_pressure := 759 |} = Some label
    ∧ export_iteration None
        (Example.table
         ++ [ {| Models.id := 4; Models.temperature := 6;
                 Models.wind_speed := 4; Models.wind_direction := EAST;
                 Models.precipitation := 0; Models.weather := "Пасмурно";
                 Models.pressure := 759;
                 Models.created_at := Some 1704086100 |} ]) [121; 10]
      = Ok (Some ({| x_temperature := Example.casts (11 # 2);
                     x_wind_speed := 4;
                     x_wind_direction := EAST;
                     x_precipitation := Example.casts (inject_Z 0);
                     x_pressure := 759;
                     x_weather := label;
                     x_created_at := 1704086100 + 10800 |} :: older))
    ∧ length older = (9 `min` length Example.table)%nat.
Proof.
  apply (export_after_create Example.casts Example.table
           (Example.table
            ++ [ {| Models.id := 4; Models.temperature := 6;
                    Models.wind_speed := 4; Models.wind_direction := EAST;
                    Models.precipitation := 0; Models.weather := "Пасмурно";
                    Models.pressure := 759;
                    Models.created_at := Some 1704086100 |} ]) 1704086100
           {| c_time := Example.at_ 8 15; c_temperature := 11 # 2;
              c_precipitation := 0; c_wind_speed := 4;
              c_wind_direction := EAST; c_weather := Some "Пасмурно";
              c_pressure := 759 |} [121; 10]).
  - apply (bool_decide_unpack _). vm_compute. exact I.
  - vm_compute. reflexivity.
  - vm_compute. reflexivity.
Defined.

(** ** The operator's answer *)

Lemma lstrip_spaces pre l :
  Forall (λ c, isspace c = true) pre → lstrip (pre ++ l) = lstrip l.
Proof.
  induction 1 as [|c pre Hc _ IH]; simpl; [done|]. by rewrite Hc.
Qed.

Lemma lstrip_all_spaces l :
  Forall (λ c, isspace c = true) l → lstrip l = [].
Proof.
  intros Hl. rewrite <- (app_nil_r l). by rewrite lstrip_spaces.
Qed.

Lemma lstrip_nil_inv l : lstrip l = [] → Forall (λ c, isspace c = true) l.
Proof.
  induction l as [|c l IH]; simpl; [by constructor|].
  destruct (isspace c) eqn:Hc; [|discriminate].
  intros Hl. constructor; [done | by apply IH].
Qed.

Lemma lstrip_app_nonempty l post :
  lstrip l ≠ [] → lstrip (l ++ post) = lstrip l ++ post.
Proof.
  induction l as [|c l IH]; simpl; [done|].
  destruct (isspace c); [apply IH | done].
Qed.

Lemma strip_surrounded pre s post :
  Forall (λ c, isspace c = true) pre →
  Forall (λ c, isspace c = true) post →
  strip (pre ++ s ++ post) = strip s.
Proof.
  intros Hpre Hpost. unfold strip. rewrite (lstrip_spaces pre) by done.
  destruct (lstrip s) as [|c s'] eqn:Hs.
  - rewrite (lstrip_all_spaces (s ++ post)); [done|].
    apply Forall_app. split; [by apply lstrip_nil_inv | done].
  - rewrite lstrip_app_nonempty by (by rewrite Hs).
    rewrite Hs, reverse_app. f_equal.
    apply lstrip_spaces. by apply Forall_reverse.
Qed.

(** X12. White space around the operator's answer does not count: an
    answer is affirmative exactly when it is affirmative with any white space
    (blanks, tabs, the line end that [readline] leaves) put before and after
    it. *)
Theorem affirmative_ignores_surrounding_space (pre input_data post : str) :
  Forall (λ c, isspace c = true) pre →
  Forall (λ c, isspace c = true) post →
  affirmative (pre ++ input_data ++ post) = affirmative input_data.
Proof.
  intros Hpre Hpost. unfold affirmative. by rewrite strip_surrounded.
Qed.

Lemma affirmative_ignores_surrounding_space_witness :
  affirmative ([32; 9] ++ [89; 101; 115] ++ [13; 10]) = affirmative [89; 101; 115].
Proof.
  apply (affirmative_ignores_surrounding_space [32; 9] [89; 101; 115] [13; 10]).
  - apply (bool_decide_unpack _). vm_compute. exact I.
  - apply (bool_decide_unpack _). vm_compute. exact I.
Defined.

(** The characters that [lower_char] sends to a given small letter are the
    letter itself and its capital. *)
Lemma lower_char_inv c d :
  lower_char c = d →
  d = 121 ∨ d = 101 ∨ d = 115 ∨ d = 1076 ∨ d = 1072 →
  c = d ∨ (c = d - 32 ∧ (65 ≤ c ≤ 90 ∨ 1040 ≤ c ≤ 1071)).
Proof.
  unfold lower_char. intros Hc Hd.
  destruct (Z.leb_spec 65 c), (Z.leb_spec c 90); simpl in Hc; try lia;
  destruct (Z.leb_spec 192 c), (Z.leb_spec c 222), (Z.eqb_spec c 215);
    simpl in Hc; try lia;
  destruct (Z.leb_spec 1024 c), (Z.leb_spec c 1039); simpl in Hc; try lia;
  destruct (Z.leb_spec 1040 c), (Z.leb_spec c 1071); simpl in Hc; lia.
Qed.

Ltac invert_lower :=
  repeat match goal with
  | H : lower_char ?c = ?d |- _ =>
      let Hc := fresh "Hc" in
      pose proof (lower_char_inv c d H ltac:(lia)) as Hc; clear H;
      destruct Hc as [-> | [-> _]]
  end.

Lemma lower_affirmative_inv l :
  lower l ∈ AFFIRMATIVE → l ∈ AFFIRMATIVE_SPELLINGS.
Proof.
  unfold AFFIRMATIVE, AFFIRMATIVE_SPELLINGS, lower.
  rewrite !elem_of_cons, elem_of_nil.
  intros [H | [H | [H | [H | []]]]].
  - destruct l as [|c1 [|c2 [|c3 l]]]; try discriminate.
    injection H as H1 H2. invert_lower; set_solver.
  - destruct l as [|c1 [|c2 [|c3 [|c4 l]]]]; try discriminate.
    injection H as H1 H2 H3. invert_lower; set_solver.
  - destruct l as [|c1 [|c2 l]]; try discriminate.
    injection H as H1. invert_lower; set_solver.
  - destruct l as [|c1 [|c2 l]]; try discriminate.
    injection H as H1. invert_lower; set_solver.
Qed.

(** X13. An answer is affirmative exactly when, stripped of the white space
    around it, it is one of sixteen strings: "да", "yes", "y" or "д" with
    each letter capital or small.  Nothing else starts an export. *)
Theorem affirmative_spellings (input_data : str) :
  affirmative input_data = true ↔ strip input_data ∈ AFFIRMATIVE_SPELLINGS.
Proof.
  unfold affirmative. rewrite bool_decide_eq_true. split.
  - apply lower_affirmative_inv.
  - generalize (strip input_data). intros l.
    unfold AFFIRMATIVE_SPELLINGS. rewrite !elem_of_cons, elem_of_nil.
    intros H. repeat (destruct H as [-> | H]; [by vm_compute; set_solver|]).
    done.
Qed.

(** X14. A line of white space only, the empty string that [readline]
    returns at the end of the input included, is not an answer: the pass ends
    at [continue] and nothing is read from the store (so a read that would
    fail does not fail the pass). *)
Theorem blank_line_exports_nothing (scalars : option exn) (db : Database)
    (input_data : str) :
  Forall (λ c, isspace c = true) input_data →
  export_iteration scalars db input_data = Ok None.
Proof.
  intros Hblank. unfold export_iteration, affirmative, strip.
  by rewrite (lstrip_all_spaces input_data Hblank).
Qed.

Lemma blank_line_exports_nothing_witness :
  export_iteration (Some SQLAlchemyError) Example.table [] = Ok None.
Proof.
  apply (blank_line_exports_nothing (Some SQLAlchemyError) Example.table []).
  apply (bool_decide_unpack _). vm_compute. exact I.
Defined.

(** ** The export loop *)

Lemma export_iteration_affirmative db input_data :
  Forall (λ r, is_Some (Models.created_at r)) db →
  affirmative input_data = true →
  ∃ rows, export_iteration None db input_data = Ok (Some rows)
          ∧ length rows = (10 `min` length db)%nat.
Proof.
  intros Hdb Hyes.
  assert (Hrecords : Forall (λ r, is_Some (Models.created_at r))
                       (take 10 (order_rows Desc db))).
  { apply Forall_take. by rewrite order_rows_Permutation. }
  destruct (traverse_validate_out_Ok _ Hrecords) as [rows Hrows].
  exists rows. split.
  - unfold export_iteration, weather_record_get_all_service, get_all.
    rewrite Hyes. simpl.
    change (merge_sort (flip id_le)) with (order_rows Desc).
    by rewrite Hrows.
  - rewrite (traverse_Ok_length _ _ _ Hrows), length_take.
    by rewrite (Permutation_length (order_rows_Permutation Desc db)).
Qed.

(** X15. While every line is read, every read of the store succeeds and the
    rows of the table have their [created_at], the export loop stays in its
    loop; it hands one set of rows to the spreadsheet writer per affirmative
    line, none for any other line, and no set has more than ten rows. *)
Theorem export_loop_one_export_per_yes (lines : list (str * Database)) :
  Forall (λ line, Forall (λ r, is_Some (Models.created_at r)) line.2) lines →
  ∃ exports,
    export_weather_records_to_excel
      ((λ line, ({| ainput := Ok line.1; scalars := None |}, line.2)) <$> lines)
    = (exports, Running)
    ∧ length exports = length (List.filter (λ line, affirmative line.1) lines)
    ∧ Forall (λ rows : list ExportRow, (length rows ≤ 10)%nat) exports.
Proof.
  induction 1 as [|[input_data db] lines Hdb _ (exports & Hrun & Hlen & Hall)].
  { exists []. by repeat split. }
  rewrite fmap_cons. simpl in Hdb. simpl.
  unfold export_pass at 1. simpl.
  destruct (affirmative input_data) eqn:Hyes.
  - destruct (export_iteration_affirmative db input_data Hdb Hyes)
      as (rows & -> & Hrows).
    rewrite Hrun. exists (rows :: exports). simpl.
    split; [done|]. split; [by rewrite Hlen|].
    constructor; [lia | done].
  - unfold export_iteration. rewrite Hyes. simpl. by exists exports.
Qed.

Lemma export_loop_one_export_per_yes_witness :
  ∃ exports,
    export_weather_records_to_excel
      ((λ line : str * Database,
          ({| ainput := Ok line.1; scalars := None |}, line.2))
       <$> [([110; 10], Example.table); ([121; 10], Example.table);
            ([10], Example.table); ([1044; 1040; 10], [])])
    = (exports, Running)
    ∧ length exports
      = length (List.filter (λ line : str * Database, affirmative line.1)
                  [([110; 10], Example.table); ([121; 10], Example.table);
                   ([10], Example.table); ([1044; 1040; 10], [])])
    ∧ Forall (λ rows : list ExportRow, (length rows ≤ 10)%nat) exports.
Proof.
  apply (export_loop_one_export_per_yes
           [([110; 10], Example.table); ([121; 10], Example.table);
            ([10], Example.table); ([1044; 1040; 10], [])]).
  apply (bool_decide_unpack _). vm_compute. exact I.
Defined.

(** The loop is left by the first read of the store that fails after an
    affirmative line; after any other line the read is not attempted. *)
Example export_loop_left_by_failure :
  export_weather_records_to_excel
    [({| ainput := Ok [110; 10]; scalars := Some SQLAlchemyError |}, Example.table);
     ({| ainput := Ok [121; 10]; scalars := Some SQLAlchemyError |}, Example.table);
     ({| ainput := Ok [121; 10]; scalars := None |}, Example.table)]
  = ([], Raised SQLAlchemyError).
Proof. reflexivity. Qed.

(** ** One pass of the polling loop *)





Lemma get_current_minute_data_Ok now data :
  m_time data ≠ [] → aligned data →
  ∃ (i : nat) s, _get_current_minute_data now data = Ok s ∧ sample_at data i s.
Proof.
  intros Hne (Htemp & Hprec & Hspeed & Hdir & Hweather).
  assert (Hi : ((minute_scan now 0 (m_time data) (0%nat, None)).1
                < length (m_time data))%nat).
  { destruct (m_time data) as [|time rest]; [done|].
    apply minute_scan_first_pass. }
  unfold _get_current_minute_data, sample_at.
  revert Hi. generalize (minute_scan now 0 (m_time data) (0%nat, None)).1.
  intros i Hi. exists i.
  destruct (lookup_lt_is_Some_2 (m_time data) i) as [t ->]; [lia|].
  destruct (lookup_lt_is_Some_2 (m_temperature data) i) as [temp ->]; [lia|].
  destruct (lookup_lt_is_Some_2 (m_precipitation data) i) as [prec ->]; [lia|].
  destruct (lookup_lt_is_Some_2 (m_wind_speed data) i) as [speed ->]; [lia|].
  destruct (lookup_lt_is_Some_2 (m_wind_direction data) i) as [dir ->]; [lia|].
  destruct (lookup_lt_is_Some_2 (m_weather data) i) as [w ->]; [lia|].
  eexists. split; [reflexivity|]. by repeat split.
Qed.

(** X17. A pass of the polling loop succeeds when the request returns both
    series, both validate, the hourly series has a sample of the current hour
    (the clock's hour standing still during the scan), the sub-hourly series
    is non-empty and aligned with every weather code known to the lookup, and
    the commit succeeds.  It then appends one record whose sub-hourly fields
    all come from one and the same position of the series (temperature and
    precipitation as the backend's integer columns hold them), whose pressure
    is an entry of the hourly pressure column, and whose [created_at] is the
    server's clock reading. *)
Theorem pass_succeeds (WEATHER_CODE_MAP : gmap Z string)
    (fromisoformat : string → option datetime)
    (t : Tick) (db : Database) (response : Response)
    (hourly_kwargs : HourlyPayload) (minutely_kwargs : MinutelyPayload)
    (hourly_data : HourlyData) (minutely_data : MinutelyData) (h : Z) :
  fetched t = Ok response →
  hourly response = Some hourly_kwargs →
  minutely_15 response = Some minutely_kwargs →
  validate_hourly fromisoformat hourly_kwargs = Ok hourly_data →
  validate_minutely WEATHER_CODE_MAP fromisoformat minutely_kwargs
  = Ok minutely_data →
  (∀ k, hour (now_hour t k) = h) →
  Exists (λ s : datetime * Q, hour s.1 = h)
    (zip (h_time hourly_data) (h_pressure hourly_data)) →
  m_time minutely_data ≠ [] →
  aligned minutely_data →
  Forall is_Some (m_weather minutely_data) →
  commit t = None →
  ∃ (r : Models.WeatherRecord) (i : nat) (temperature : Q) (precipitation : Z),
    iteration WEATHER_CODE_MAP fromisoformat t db = Ok (db ++ [r])
    ∧ Models.id r = next_id db
    ∧ Models.created_at r = Some (server_now t)
    ∧ Models.pressure r ∈ h_pressure hourly_data
    ∧ m_temperature minutely_data !! i = Some temperature
    ∧ Models.temperature r = integer_column t temperature
    ∧ m_wind_speed minutely_data !! i = Some (Models.wind_speed r)
    ∧ m_wind_direction minutely_data !! i = Some (Models.wind_direction r)
    ∧ m_weather minutely_data !! i = Some (Some (Models.weather r))
    ∧ m_precipitation minutely_data !! i = Some precipitation
    ∧ Models.precipitation r = integer_column t (inject_Z precipitation).
Proof.
  intros Hfetch Hhourly Hminutely Hvh Hvm Hnow Hex Hne Haligned Hlabels Hcommit.
  destruct (hour_scan_first_match (now_hour t) h Hnow _ 0%nat Hex)
    as (before & time & pressure & after & Hzip & _ & _ & Hsel).
  destruct (get_current_minute_data_Ok (now_minute t) minutely_data Hne Haligned)
    as (i & s & Hs & Htime & Htemp & Hprec & Hspeed & Hdir & Hweather).
  assert (Hlabel : is_Some (s_weather s)).
  { rewrite Forall_forall in Hlabels. apply Hlabels.
    apply list_elem_of_lookup. by exists i. }
  destruct Hlabel as [label Hlabel].
  eexists _, i, (s_temperature s), (s_precipitation s). split.
  - unfold iteration. rewrite Hfetch. simpl. rewrite Hhourly. simpl.
    rewrite Hvh. simpl. rewrite Hminutely. simpl. rewrite Hvm. simpl.
    rewrite Hs. simpl. unfold _get_current_hour_data. rewrite Hsel. simpl.
    unfold weather_record_create_service, validate_create. simpl.
    rewrite Hlabel. simpl. rewrite Hcommit. reflexivity.
  - simpl. rewrite <- Hlabel. repeat split; try done.
    apply (elem_of_zip_r time pressure (h_time hourly_data)).
    rewrite Hzip. apply elem_of_app. right. left.
Qed.

Lemma pass_succeeds_witness :
  ∃ (r : Models.WeatherRecord) (i : nat) (temperature : Q) (precipitation : Z),
    iteration Example.WEATHER_CODE_MAP Example.fromisoformat Example.good_tick
      Example.table = Ok (Example.table ++ [r])
    ∧ Models.id r = next_id Example.table
    ∧ Models.created_at r = Some (server_now Example.good_tick)
    ∧ Models.pressure r ∈ h_pressure Example.hourly_normalized
    ∧ m_temperature Example.minutely_normalized !! i = Some temperature
    ∧ Models.temperature r = integer_column Example.good_tick temperature
    ∧ m_wind_speed Example.minutely_normalized !! i = Some (Models.wind_speed r)
    ∧ m_wind_direction Example.minutely_normalized !! i
      = Some (Models.wind_direction r)
    ∧ m_weather Example.minutely_normalized !! i = Some (Some (Models.weather r))
    ∧ m_precipitation Example.minutely_normalized !! i = Some precipitation
    ∧ Models.precipitation r
      = integer_column Example.good_tick (inject_Z precipitation).
Proof.
  apply (pass_succeeds Example.WEATHER_CODE_MAP Example.fromisoformat
           Example.good_tick Example.table (Example.response [0; 3; 0])
           Example.hourly_payload (Example.minutely_payload [0; 3; 0])
           Example.hourly_normalized Example.minutely_normalized 8).
  - reflexivity.
  - reflexivity.
  - reflexivity.
  - vm_compute. reflexivity.
  - vm_compute. reflexivity.
  - intros k. reflexivity.
  - apply (bool_decide_unpack _). vm_compute. exact I.
  - discriminate.
  - vm_compute. repeat split; reflexivity.
  - apply (bool_decide_unpack _). vm_compute. exact I.
  - reflexivity.
Defined.

(** X18. [ValidationService(WeatherHourlySchemaIn)] succeeds exactly when
    both fields are present and every timestamp parses; it then returns one
    parsed timestamp per string, in order, and the converted pressures.  A
    missing field gives [ValidationError]; otherwise a single timestamp that
    does not parse makes the call fail as a whole, with
    [SerializationError]. *)
Theorem validate_hourly_outcome (fromisoformat : string → option datetime)
    (kwargs : HourlyPayload) :
  match validate_hourly fromisoformat kwargs with
  | Ok data =>
      ∃ time surface_pressure,
        p_hourly_time kwargs = Some time
        ∧ p_surface_pressure kwargs = Some surface_pressure
        ∧ length (h_time data) = length time
        ∧ (∀ (i : nat) s, time !! i = Some s →
             ∃ d, fromisoformat s = Some d ∧ h_time data !! i = Some d)
        ∧ h_pressure data = serialize_surface_pressure surface_pressure
  | Raise e =>
      (e = ValidationError
       ∧ (p_hourly_time kwargs = None ∨ p_surface_pressure kwargs = None))
      ∨ (e = SerializationError
         ∧ ∃ time s, p_hourly_time kwargs = Some time
                     ∧ s ∈ time ∧ fromisoformat s = None)
  end.
Proof.
  unfold validate_hourly, serialize_time.
  destruct (p_hourly_time kwargs) as [time|]; simpl; [|left; auto].
  destruct (p_surface_pressure kwargs) as [sp|]; simpl; [|left; auto].
  destruct (traverse _ time) as [time'|e] eqn:Ht; simpl.
  - exists time, sp. destruct (traverse_Ok_inv _ _ _ Ht) as [Hlen Hall].
    split; [done|]. split; [done|]. split; [done|]. split; [|done].
    intros i s Hi. destruct (Hall i s Hi) as (d & Hd & Hlk).
    exists d. split; [|done].
    destruct (fromisoformat s); [|discriminate]. by injection Hd as ->.
  - right. destruct (traverse_Raise_inv _ _ _ Ht) as (s & Hs & Hf).
    destruct (fromisoformat s) eqn:Hparse; [discriminate|].
    injection Hf as <-. split; [done|]. by exists time, s.
Qed.

(** One timestamp out of two does not parse. *)
Example validate_hourly_bad_timestamp :
  validate_hourly Example.fromisoformat
    {| p_hourly_time := Some ["2024-01-01T08:00"; "08:00"];
       p_surface_pressure := Some [1013; 1012]%Q |}
  = Raise SerializationError.
Proof. reflexivity. Qed.
